(** * Component executor function parser

    A shallow embedding of [tfx/components/base/function_parser.py]: the
    validator [_validate_signature], the lowering [_parse_signature] and the
    entry point [parse_typehint_component_function], followed by the
    properties of the parser that its specification states. *)

From Stdlib Require Import String Ascii List NArith HexString Permutation.
From stdpp Require Import base option list gmap strings.

Open Scope string_scope.
Set Warnings "-register-all".

(** ** Artifact types and annotation values *)

(** Artifact types are identifiers of classes deriving from
    [tfx.types.Artifact]; the parser never looks inside them.  The four
    value artifacts are the ones the lookup table of the source names,
    [Model] and [InfraBlessing] are the ones of the infra validator
    component. *)
Inductive ArtifactType : Type :=
| Artifact
| IntegerType
| FloatType
| BytesType
| StringType
| Model
| InfraBlessing
| UserArtifact (name : string).

(** Class objects that may appear as a type hint. *)
Inductive pyclass : Type :=
| py_int
| py_float
| py_bytes
| py_Text
| ArtifactClass (T : ArtifactType)
| OtherClass (name : string).

(** The values of the resolved type hint dictionary ([Dict[Text, Any]]).
    The first four are instances of the generic markers of
    [tfx.types.annotations], carrying their [type] attribute;
    [ComponentOutput] carries its [kwargs] dictionary as the list of its
    items in iteration order (a dictionary: its keys are distinct).
    [OtherValue] stands for every other hashable object an annotation can
    resolve to, of the type named, and [Unhashable] for an object that
    cannot be hashed, such as the list [[int]] or the dictionary [{}]. *)
Inductive typehint : Type :=
| InputArtifact (type : ArtifactType)
| InputArtifactUri (type : ArtifactType)
| OutputArtifact (type : ArtifactType)
| OutputArtifactUri (type : ArtifactType)
| ComponentOutput (kwargs : list (string * typehint))
| ClassObject (c : pyclass)
| OtherValue (type_name : string)
| Unhashable (type_name : string).

#[global] Instance ArtifactType_eq_dec : EqDecision ArtifactType.
Proof. solve_decision. Defined.

#[global] Instance pyclass_eq_dec : EqDecision pyclass.
Proof. solve_decision. Defined.

Inductive ArgFormats : Type :=
| INPUT_ARTIFACT
| INPUT_ARTIFACT_URI
| OUTPUT_ARTIFACT
| OUTPUT_ARTIFACT_URI
| ARTIFACT_VALUE.

(** The [value] of a member of the enumeration. *)
Definition ArgFormats_value (f : ArgFormats) : nat :=
  match f with
  | INPUT_ARTIFACT => 1
  | INPUT_ARTIFACT_URI => 2
  | OUTPUT_ARTIFACT => 3
  | OUTPUT_ARTIFACT_URI => 4
  | ARTIFACT_VALUE => 5
  end.

(** The module level dictionary, keyed by class objects. *)
Definition _PRIMITIVE_TO_ARTIFACT : list (pyclass * ArtifactType) :=
  [ (py_int, IntegerType);
    (py_float, FloatType);
    (py_bytes, BytesType);
    (py_Text, StringType) ].

Fixpoint assoc {V : Type} (c : pyclass) (d : list (pyclass * V)) : option V :=
  match d with
  | [] => None
  | (k, v) :: d' => if decide (k = c) then Some v else assoc c d'
  end.

(** [_PRIMITIVE_TO_ARTIFACT.get(h)]: only a class object can be equal to
    one of the keys.  [h in _PRIMITIVE_TO_ARTIFACT] is [is_Some] of it and
    [_PRIMITIVE_TO_ARTIFACT[h]] its value. *)
Definition primitive_lookup (h : typehint) : option ArtifactType :=
  match h with
  | ClassObject c => assoc c _PRIMITIVE_TO_ARTIFACT
  | _ => None
  end.

(** [inspect.isclass(h) and issubclass(h, artifact.Artifact)]. *)
Definition is_artifact_class (h : typehint) : bool :=
  match h with
  | ClassObject (ArtifactClass _) => true
  | _ => false
  end.

(** ** Exceptions *)

Inductive exception : Type :=
| ValueError (msg : string)
| KeyError (key : string)
| TypeError (msg : string)
| AttributeError (msg : string)
| NameError (msg : string).

Inductive outcome (A : Type) : Type :=
| Return (a : A)
| Raise (e : exception).
Arguments Return {A} a.
Arguments Raise {A} e.

(** ** Declarations *)

(** An entry of [argspec.args]: a name, or in Python 2 a nested list of
    entries for a destructured parameter. *)
Inductive argument : Type :=
| Name (s : string)
| Nested (l : list argument).

(** [inspect.FullArgSpec], but for its [annotations], the unresolved
    form of the type hints.  [args] are the positional parameters;
    [defaults] is [None] or the tuple of their default values, each kept
    as its source text; [kwonlyargs] are the keyword-only parameters and
    [kwonlydefaults] is [None] or the dictionary of their default values. *)
Record FullArgSpec : Type := {
  args : list argument;
  varargs : option string;
  varkw : option string;
  defaults : option (list string);
  kwonlyargs : list string;
  kwonlydefaults : option (list (string * string))
}.

(** A function object: what its [repr] shows, what
    [inspect.getfullargspec] returns for it, and what
    [typing.get_type_hints] returns for it or raises, as it does with
    [NameError] on a forward reference that does not resolve. *)
Record FunctionType : Type := {
  qualname : string;
  address : N;
  getfullargspec : FullArgSpec;
  get_type_hints : outcome (gmap string typehint)
}.

(** The candidates handed to the entry point. *)
Inductive pyobject : Type :=
| Function (f : FunctionType)
| BoundMethod (f : FunctionType) (self_repr : string)
| Class (module name : string)
| CallableObject (shown : string).

(** ** Text formatting *)

Definition quote1 : ascii := "'"%char.
Definition quote2 : ascii := ascii_of_nat 34.
Definition backslash : ascii := "\"%char.

Fixpoint occurs (c : ascii) (s : string) : bool :=
  match s with
  | EmptyString => false
  | String d s' => if Ascii.eqb c d then true else occurs c s'
  end.

Definition hex_digit (n : nat) : ascii :=
  match n with
  | 0 => "0" | 1 => "1" | 2 => "2" | 3 => "3" | 4 => "4" | 5 => "5"
  | 6 => "6" | 7 => "7" | 8 => "8" | 9 => "9" | 10 => "a" | 11 => "b"
  | 12 => "c" | 13 => "d" | 14 => "e" | _ => "f"
  end%char.

(** One character of the [repr] of a text, a character being a code
    point below 256: the delimiter and the backslash are escaped, the
    characters that are not printable (the control characters, the
    no-break space and the soft hyphen) are written as escapes, everything
    else is kept. *)
Definition repr_char (q : ascii) (c : ascii) : string :=
  let n := nat_of_ascii c in
  if Ascii.eqb c q || Ascii.eqb c backslash then String backslash (String c "")
  else if Nat.eqb n 9 then "\t"
  else if Nat.eqb n 10 then "\n"
  else if Nat.eqb n 13 then "\r"
  else if Nat.ltb n 32 || (Nat.leb 127 n && Nat.leb n 160) || Nat.eqb n 173 then
    String backslash
      (String "x" (String (hex_digit (Nat.div n 16))
                          (String (hex_digit (Nat.modulo n 16)) "")))
  else String c "".

Fixpoint repr_chars (q : ascii) (s : string) : string :=
  match s with
  | EmptyString => ""
  | String c s' => repr_char q c ++ repr_chars q s'
  end.

(** [repr] of a text, the [%r] of an argument name: single quotes, unless
    the text has a single quote and no double quote. *)
Definition repr_text (s : string) : string :=
  let q := if occurs quote1 s && negb (occurs quote2 s) then quote2 else quote1 in
  String q (repr_chars q s) ++ String q "".

(** [repr] of a function object. *)
Definition repr_function (f : FunctionType) : string :=
  "<function " ++ qualname f ++ " at " ++ HexString.of_N (address f) ++ ">".

Definition repr_object (o : pyobject) : string :=
  match o with
  | Function f => repr_function f
  | BoundMethod f self_repr =>
      "<bound method " ++ qualname f ++ " of " ++ self_repr ++ ">"
  | Class module name =>
      if String.eqb module "builtins" then "<class '" ++ name ++ "'>"
      else "<class '" ++ module ++ "." ++ name ++ "'>"
  | CallableObject shown => shown
  end.

(** [needle in msg] on texts. *)
Fixpoint contains (needle msg : string) : bool :=
  if String.prefix needle msg then true
  else match msg with
       | EmptyString => false
       | String _ msg' => contains needle msg'
       end.

(** [str(e)] for the exceptions of the parser. *)
Definition exception_message (e : exception) : string :=
  match e with
  | ValueError msg => msg
  | KeyError key => repr_text key
  | TypeError msg => msg
  | AttributeError msg => msg
  | NameError msg => msg
  end.

(** ** Raising and looping *)

Definition bind {A B : Type} (m : outcome A) (k : A -> outcome B) : outcome B :=
  match m with
  | Return a => k a
  | Raise e => Raise e
  end.

Declare Scope outcome_scope.
Delimit Scope outcome_scope with outcome.
Notation "x <- m ;; k" := (bind m (fun x => k))
  (at level 100, m at next level, right associativity) : outcome_scope.
Notation "m ;; k" := (bind m (fun _ => k))
  (at level 100, right associativity) : outcome_scope.
Open Scope outcome_scope.

(** [for x in xs: body] where the body updates the local variables [S] of
    the enclosing function; an exception raised by the body leaves the
    loop and the function. *)
Fixpoint for_in {A S : Type} (xs : list A) (body : A -> S -> outcome S) (s : S)
  : outcome S :=
  match xs with
  | [] => Return s
  | x :: xs' => s' <- body x s ;; for_in xs' body s'
  end.

(** Truth value of [argspec.varargs] and [argspec.varkw] ([None] or a
    name) and of [argspec.defaults] ([None] or a tuple). *)
Definition truthy_name (o : option string) : bool :=
  match o with
  | Some (String _ _) => true
  | _ => false
  end.

Definition truthy_tuple {A : Type} (o : option (list A)) : bool :=
  match o with
  | Some (_ :: _) => true
  | _ => false
  end.

(** [isinstance(arg, list)]. *)
Definition isinstance_list (arg : argument) : bool :=
  match arg with
  | Nested _ => true
  | Name _ => false
  end.

(** The [TypeError] of hashing an object of the type named. *)
Definition unhashable (type_name : string) : exception :=
  TypeError ("unhashable type: '" ++ type_name ++ "'").

Definition unhashable_list : exception := unhashable "list".

(** [h in _PRIMITIVE_TO_ARTIFACT] and, where it holds,
    [_PRIMITIVE_TO_ARTIFACT[h]]: the dictionary hashes [h] before it looks
    for a key equal to it. *)
Definition primitive_find (h : typehint) : outcome (option ArtifactType) :=
  match h with
  | Unhashable type_name => Raise (unhashable type_name)
  | _ => Return (primitive_lookup h)
  end.

Definition artifact_name (T : ArtifactType) : string :=
  match T with
  | Artifact => "Artifact"
  | IntegerType => "IntegerType"
  | FloatType => "FloatType"
  | BytesType => "BytesType"
  | StringType => "StringType"
  | Model => "Model"
  | InfraBlessing => "InfraBlessing"
  | UserArtifact name => name
  end.

Definition pyclass_name (c : pyclass) : string :=
  match c with
  | py_int => "int"
  | py_float => "float"
  | py_bytes => "bytes"
  | py_Text => "str"
  | ArtifactClass T => artifact_name T
  | OtherClass name => name
  end.

(** The [AttributeError] of [h.attr] on an object without that attribute. *)
Definition no_attribute (h : typehint) (attr : string) : exception :=
  let instance_of type_name :=
    "'" ++ type_name ++ "' object has no attribute '" ++ attr ++ "'" in
  AttributeError
    match h with
    | InputArtifact _ => instance_of "InputArtifact"
    | InputArtifactUri _ => instance_of "InputArtifactUri"
    | OutputArtifact _ => instance_of "OutputArtifact"
    | OutputArtifactUri _ => instance_of "OutputArtifactUri"
    | ComponentOutput _ => instance_of "ComponentOutput"
    | ClassObject c =>
        "type object '" ++ pyclass_name c ++ "' has no attribute '" ++ attr ++ "'"
    | OtherValue type_name => instance_of type_name
    | Unhashable type_name => instance_of type_name
    end.

(** [arg in typehints]: a list cannot be hashed. *)
Definition dict_contains (typehints : gmap string typehint) (arg : argument)
  : outcome bool :=
  match arg with
  | Name s => Return (bool_decide (is_Some (typehints !! s)))
  | Nested _ => Raise unhashable_list
  end.

(** [typehints[arg]]. *)
Definition dict_getitem (typehints : gmap string typehint) (arg : argument)
  : outcome (string * typehint) :=
  match arg with
  | Name s =>
      match typehints !! s with
      | Some h => Return (s, h)
      | None => Raise (KeyError s)
      end
  | Nested _ => Raise unhashable_list
  end.

(** [isinstance(h, annotations.ComponentOutput)]. *)
Definition isinstance_ComponentOutput (h : typehint) : bool :=
  match h with
  | ComponentOutput _ => true
  | _ => false
  end.

(** ** The validator *)

(** The texts of the five [ValueError]s of [_validate_signature], each the
    subject message followed by a fixed sentence. *)
Definition MissingOutputContract (subject_message : string) : exception :=
  ValueError (subject_message ++
    " must have a ComponentOutput instance as its return value typehint.").

Definition UnsupportedVariadicParameters (subject_message : string) : exception :=
  ValueError (subject_message ++ " does not support *args or **kwargs arguments.").

Definition UnsupportedDefaultValue (subject_message : string) : exception :=
  ValueError (subject_message ++
    " currently does not support optional arguments / default values.").

Definition UnsupportedNestedParameter (subject_message : string) : exception :=
  ValueError (subject_message ++ " does not support nested input arguments.").

Definition MissingAnnotation (subject_message : string) : exception :=
  ValueError (subject_message ++
    " must have all arguments annotated with typehints.").

(** The body of [for arg in args] in the validator. *)
Definition validate_argument (typehints : gmap string typehint)
    (subject_message : string) (arg : argument) (u : unit) : outcome unit :=
  if isinstance_list arg then Raise (UnsupportedNestedParameter subject_message)
  else
    present <- dict_contains typehints arg ;;
    if negb present then Raise (MissingAnnotation subject_message)
    else Return u.

Definition _validate_signature (argspec : FullArgSpec)
    (typehints : gmap string typehint) (subject_message : string) : outcome unit :=
  let '(args, varargs, keywords, defaults) :=
    (argspec.(args), argspec.(varargs), argspec.(varkw), argspec.(defaults)) in
  if negb (match typehints !! "return" with
           | Some r => isinstance_ComponentOutput r
           | None => false
           end)
  then Raise (MissingOutputContract subject_message)
  else if truthy_name varargs || truthy_name keywords
  then Raise (UnsupportedVariadicParameters subject_message)
  else if truthy_tuple defaults
  then Raise (UnsupportedDefaultValue subject_message)
  else for_in args (validate_argument typehints subject_message) tt.

(** ** The lowering *)

(** The local variables of [_parse_signature]: its three parameters and
    the three containers it fills. *)
Record Locals : Type := {
  func : FunctionType;
  argspec : FullArgSpec;
  typehints : gmap string typehint;
  inputs : gmap string ArtifactType;
  outputs : gmap string ArtifactType;
  arg_formats : list (ArgFormats * string)
}.

(** [inputs[k] = v], [outputs[k] = v] and [arg_formats.append(x)]. *)
Definition inputs_setitem (k : string) (v : ArtifactType) (st : Locals) : Locals :=
  {| func := func st; argspec := argspec st; typehints := typehints st;
     inputs := <[k := v]> (inputs st);
     outputs := outputs st;
     arg_formats := arg_formats st |}.

Definition outputs_setitem (k : string) (v : ArtifactType) (st : Locals) : Locals :=
  {| func := func st; argspec := argspec st; typehints := typehints st;
     inputs := inputs st;
     outputs := <[k := v]> (outputs st);
     arg_formats := arg_formats st |}.

Definition arg_formats_append (x : ArgFormats * string) (st : Locals) : Locals :=
  {| func := func st; argspec := argspec st; typehints := typehints st;
     inputs := inputs st;
     outputs := outputs st;
     arg_formats := arg_formats st ++ [x] |}.

Definition UnrecognizedInputAnnotation (arg : string) (func : FunctionType)
  : exception :=
  ValueError ("Unknown type hint annotation for argument " ++ repr_text arg ++
              " on function " ++ repr_function func).

Definition MisplacedOutputArtifact (func : FunctionType) : exception :=
  ValueError ("Output artifacts for the component executor function " ++
    repr_function func ++ " should be declared as function parameters " ++
    "annotated with type hint `tfx.types.annotations.OutputArtifact[T]` " ++
    "or `tfx.types.annotations.OutputArtifactUri[T]` where T is a " ++
    "subclass of `tfx.types.Artifact`. They should not be declared as " ++
    "part of the return value `ComponentOutput` type hint.").

Definition UnrecognizedOutputAnnotation (arg : string) (func : FunctionType)
  : exception :=
  ValueError ("Unknown type hint annotation for output " ++ repr_text arg ++
              " on function " ++ repr_function func).

(** The body of [for arg in argspec.args]. *)
Definition parse_argument (arg : argument) (st : Locals) : outcome Locals :=
  item <- dict_getitem (typehints st) arg ;;
  let '(arg, arg_typehint) := item in
  match arg_typehint with
  | InputArtifact type =>
      Return (inputs_setitem arg type
                (arg_formats_append (INPUT_ARTIFACT, arg) st))
  | InputArtifactUri type =>
      Return (inputs_setitem arg type
                (arg_formats_append (INPUT_ARTIFACT_URI, arg) st))
  | OutputArtifact type =>
      Return (outputs_setitem arg type
                (arg_formats_append (OUTPUT_ARTIFACT, arg) st))
  | OutputArtifactUri type =>
      Return (outputs_setitem arg type
                (arg_formats_append (OUTPUT_ARTIFACT_URI, arg) st))
  | _ =>
      found <- primitive_find arg_typehint ;;
      match found with
      | Some artifact_type =>
          Return (arg_formats_append (ARTIFACT_VALUE, arg)
                    (inputs_setitem arg artifact_type st))
      | None => Raise (UnrecognizedInputAnnotation arg (func st))
      end
  end.

(** [isinstance(h, OutputArtifact) or isinstance(h, OutputArtifactUri) or
    (inspect.isclass(h) and issubclass(h, artifact.Artifact))]. *)
Definition is_output_artifact (h : typehint) : bool :=
  match h with
  | OutputArtifact _ | OutputArtifactUri _ => true
  | _ => is_artifact_class h
  end.

(** The body of [for arg, arg_typehint in typehints['return'].kwargs.items()]. *)
Definition parse_output (item : string * typehint) (st : Locals)
  : outcome Locals :=
  let '(arg, arg_typehint) := item in
  if is_output_artifact arg_typehint then Raise (MisplacedOutputArtifact (func st))
  else
    found <- primitive_find arg_typehint ;;
    match found with
    | Some artifact_type => Return (outputs_setitem arg artifact_type st)
    | None => Raise (UnrecognizedOutputAnnotation arg (func st))
    end.

(** [typehints['return'].kwargs]. *)
Definition return_kwargs (typehints : gmap string typehint)
  : outcome (list (string * typehint)) :=
  match typehints !! "return" with
  | None => Raise (KeyError "return")
  | Some (ComponentOutput kwargs) => Return kwargs
  | Some r => Raise (no_attribute r "kwargs")
  end.

(** The locals on entry: the arguments of the call and empty containers. *)
Definition enter (func : FunctionType) (argspec : FullArgSpec)
    (typehints : gmap string typehint) : Locals :=
  {| func := func; argspec := argspec; typehints := typehints;
     inputs := ∅; outputs := ∅; arg_formats := [] |}.

(** The two loops of [_parse_signature], from the locals on entry to the
    locals at the [return] statement. *)
Definition parse_loops (st : Locals) : outcome Locals :=
  st <- for_in (argspec st).(args) parse_argument st ;;
  kwargs <- return_kwargs (typehints st) ;;
  for_in kwargs parse_output st.

Definition _parse_signature (func : FunctionType) (argspec : FullArgSpec)
    (typehints : gmap string typehint)
  : outcome (gmap string ArtifactType * gmap string ArtifactType *
             list (ArgFormats * string)) :=
  st <- parse_loops (enter func argspec typehints) ;;
  Return (inputs st, outputs st, arg_formats st).

(** ** The entry point *)

Definition NotAFunction (func : pyobject) : exception :=
  ValueError ("Expected a typehint-annotated Python function (got " ++
              repr_object func ++ " instead).").

Definition subject_message : string :=
  "Component declared as a typehint-annotated function".

Definition parse_typehint_component_function (func : pyobject)
  : outcome (gmap string ArtifactType * gmap string ArtifactType *
             list (ArgFormats * string)) :=
  match func with
  | Function f =>
      typehints <- get_type_hints f ;;
      let argspec := getfullargspec f in
      _validate_signature argspec typehints subject_message ;;
      contract <- _parse_signature f argspec typehints ;;
      let '(inputs, outputs, arg_formats) := contract in
      Return (inputs, outputs, arg_formats)
  | _ => Raise (NotAFunction func)
  end.

(** ** The parser on a store of objects *)

(** The writes of the parser are item assignments on dictionaries and
    appends to a list.  Here the dictionaries and lists that the parser
    can reach are objects of a store, read and written through
    references: the lookup table of the module, the dictionary of type
    hints that [typing.get_type_hints] builds, the [kwargs] dictionary of
    a [ComponentOutput] annotation, which that dictionary shares with the
    annotations of the function, the list [argspec.args], and the two
    dictionaries and the list that the lowering creates. *)
Module Store.

Definition ref : Type := positive.

(** An annotation object: one that holds no dictionary; a
    [ComponentOutput] instance with the reference of its [kwargs]; or an
    instance of a class of the user's whose [__hash__] adds one to the
    number at [cell] and returns the hash of the class [like], and whose
    [__eq__] holds of [like] and of nothing else. *)
Inductive hint_value : Type :=
| Plain (h : typehint)
| Shape (kwargs : ref)
| Probe (cell : ref) (like : pyclass).

Inductive object : Type :=
| Counter (n : N)
| Table (items : list (pyclass * ArtifactType))
| HintDict (items : gmap string hint_value)
| FieldDict (items : list (string * typehint))
| ArgList (items : list argument)
| ArtifactDict (items : gmap string ArtifactType)
| FormatList (items : list (ArgFormats * string)).

Abbreviation heap := (gmap positive object).

(** A function object, its type hints being annotation objects of the
    store. *)
Record function : Type := {
  qualname : string;
  address : N;
  getfullargspec : FullArgSpec;
  get_type_hints : outcome (gmap string hint_value)
}.

Inductive candidate : Type :=
| PlainFunction (f : function)
| NotFunction (o : pyobject).

(** A computation reads and writes the store and returns or raises. *)
Definition M (A : Type) : Type := heap -> outcome A * heap.

Definition ret {A : Type} (a : A) : M A := fun h => (Return a, h).

Definition raise {A : Type} (e : exception) : M A := fun h => (Raise e, h).

Definition bind {A B : Type} (m : M A) (k : A -> M B) : M B :=
  fun h =>
    match m h with
    | (Return a, h') => k a h'
    | (Raise e, h') => (Raise e, h')
    end.

Declare Scope store_scope.
Delimit Scope store_scope with store.
Notation "x <- m ;; k" := (bind m (fun x => k))
  (at level 100, m at next level, right associativity) : store_scope.
Notation "m ;; k" := (bind m (fun _ => k))
  (at level 100, right associativity) : store_scope.
#[local] Open Scope store_scope.

Fixpoint for_in {A : Type} (xs : list A) (body : A -> M unit) : M unit :=
  match xs with
  | [] => ret tt
  | x :: xs' => body x ;; for_in xs' body
  end.

(** The new object gets a reference that the store does not use. *)
Definition alloc (o : object) : M ref :=
  fun h => let r := fresh (dom h) in (Return r, <[r := o]> h).

(** What an operation raises on a reference without an object or with an
    object of another kind than the operation expects. *)
Definition stray : exception := TypeError "unexpected object".

Definition read (r : ref) : M object :=
  fun h =>
    match h !! r with
    | Some o => (Return o, h)
    | None => (Raise stray, h)
    end.

Definition write (r : ref) (o : object) : M unit :=
  fun h => (Return tt, <[r := o]> h).

(** [d[k] = v] and [l.append(x)]. *)
Definition dict_setitem (d : ref) (k : string) (v : ArtifactType) : M unit :=
  o <- read d ;;
  match o with
  | ArtifactDict items => write d (ArtifactDict (<[k := v]> items))
  | _ => raise stray
  end.

Definition list_append (l : ref) (x : ArgFormats * string) : M unit :=
  o <- read l ;;
  match o with
  | FormatList items => write l (FormatList (items ++ [x]))
  | _ => raise stray
  end.

(** The elements of the list [argspec.args]. *)
Definition list_items (l : ref) : M (list argument) :=
  o <- read l ;;
  match o with
  | ArgList items => ret items
  | _ => raise stray
  end.

Definition hints_lookup (typehints : ref) (key : string)
  : M (option hint_value) :=
  o <- read typehints ;;
  match o with
  | HintDict items => ret (items !! key)
  | _ => raise stray
  end.

(** [arg in typehints] and [typehints[arg]]. *)
Definition dict_contains (typehints : ref) (arg : argument) : M bool :=
  match arg with
  | Name s =>
      v <- hints_lookup typehints s ;;
      ret (match v with Some _ => true | None => false end)
  | Nested _ => raise unhashable_list
  end.

Definition dict_getitem (typehints : ref) (arg : argument)
  : M (string * hint_value) :=
  match arg with
  | Name s =>
      v <- hints_lookup typehints s ;;
      match v with
      | Some x => ret (s, x)
      | None => raise (KeyError s)
      end
  | Nested _ => raise unhashable_list
  end.

Definition isinstance_ComponentOutput (v : hint_value) : bool :=
  match v with
  | Shape _ | Plain (ComponentOutput _) => true
  | _ => false
  end.

(** [hash(v)], which a dictionary calls on a key before it looks for
    it. *)
Definition hash (v : hint_value) : M unit :=
  match v with
  | Plain (Unhashable type_name) => raise (unhashable type_name)
  | Probe cell _ =>
      o <- read cell ;;
      match o with
      | Counter n => write cell (Counter (n + 1))
      | _ => raise stray
      end
  | _ => ret tt
  end.

(** The class that [v] is equal to, if any. *)
Definition equal_class (v : hint_value) : option pyclass :=
  match v with
  | Plain (ClassObject c) => Some c
  | Probe _ like => Some like
  | _ => None
  end.

(** The entry of [v] in the dictionary that the global
    [_PRIMITIVE_TO_ARTIFACT] refers to. *)
Definition table_find (table : ref) (v : hint_value)
  : M (option ArtifactType) :=
  hash v ;;
  o <- read table ;;
  match o with
  | Table items =>
      ret (match equal_class v with
           | Some c => assoc c items
           | None => None
           end)
  | _ => raise stray
  end.

(** [v in _PRIMITIVE_TO_ARTIFACT] and [_PRIMITIVE_TO_ARTIFACT[v]]. *)
Definition table_contains (table : ref) (v : hint_value) : M bool :=
  found <- table_find table v ;;
  ret (match found with Some _ => true | None => false end).

Definition table_getitem (table : ref) (v : hint_value) : M ArtifactType :=
  found <- table_find table v ;;
  match found with
  | Some artifact_type => ret artifact_type
  | None => raise (KeyError "annotation")
  end.

Definition validate_argument (typehints : ref) (subject_message : string)
    (arg : argument) : M unit :=
  if isinstance_list arg then raise (UnsupportedNestedParameter subject_message)
  else
    present <- dict_contains typehints arg ;;
    if negb present then raise (MissingAnnotation subject_message)
    else ret tt.

(** The validator; [args] is the reference of the list [argspec.args],
    the other fields of [argspec] are values. *)
Definition _validate_signature (argspec : FullArgSpec) (args : ref)
    (typehints : ref) (subject_message : string) : M unit :=
  let '(varargs, keywords, defaults) :=
    (argspec.(varargs), argspec.(varkw), argspec.(defaults)) in
  return_hint <- hints_lookup typehints "return" ;;
  if negb (match return_hint with
           | Some r => isinstance_ComponentOutput r
           | None => false
           end)
  then raise (MissingOutputContract subject_message)
  else if truthy_name varargs || truthy_name keywords
  then raise (UnsupportedVariadicParameters subject_message)
  else if truthy_tuple defaults
  then raise (UnsupportedDefaultValue subject_message)
  else
    items <- list_items args ;;
    for_in items (validate_argument typehints subject_message).

(** The body of [for arg in argspec.args]. *)
Definition parse_argument (func : FunctionType)
    (typehints table inputs outputs arg_formats : ref) (arg : argument)
  : M unit :=
  item <- dict_getitem typehints arg ;;
  let '(arg, arg_typehint) := item in
  match arg_typehint with
  | Plain (InputArtifact type) =>
      list_append arg_formats (INPUT_ARTIFACT, arg) ;;
      dict_setitem inputs arg type
  | Plain (InputArtifactUri type) =>
      list_append arg_formats (INPUT_ARTIFACT_URI, arg) ;;
      dict_setitem inputs arg type
  | Plain (OutputArtifact type) =>
      list_append arg_formats (OUTPUT_ARTIFACT, arg) ;;
      dict_setitem outputs arg type
  | Plain (OutputArtifactUri type) =>
      list_append arg_formats (OUTPUT_ARTIFACT_URI, arg) ;;
      dict_setitem outputs arg type
  | _ =>
      present <- table_contains table arg_typehint ;;
      if present then
        artifact_type <- table_getitem table arg_typehint ;;
        dict_setitem inputs arg artifact_type ;;
        list_append arg_formats (ARTIFACT_VALUE, arg)
      else raise (UnrecognizedInputAnnotation arg func)
  end.

(** [typehints['return'].kwargs.items()]. *)
Definition field_items (v : hint_value) : M (list (string * typehint)) :=
  match v with
  | Shape kwargs =>
      o <- read kwargs ;;
      match o with
      | FieldDict items => ret items
      | _ => raise stray
      end
  | Plain (ComponentOutput kwargs) => ret kwargs
  | Plain r => raise (no_attribute r "kwargs")
  | Probe _ _ => raise (no_attribute (OtherValue "Probe") "kwargs")
  end.

(** The body of the loop over the fields of the result shape. *)
Definition parse_output (func : FunctionType) (table outputs : ref)
    (item : string * typehint) : M unit :=
  let '(arg, arg_typehint) := item in
  if is_output_artifact arg_typehint then raise (MisplacedOutputArtifact func)
  else
    present <- table_contains table (Plain arg_typehint) ;;
    if present then
      artifact_type <- table_getitem table (Plain arg_typehint) ;;
      dict_setitem outputs arg artifact_type
    else raise (UnrecognizedOutputAnnotation arg func).

(** The lowering; it returns the references of the three containers it
    has created. *)
Definition _parse_signature (func : FunctionType) (args typehints table : ref)
  : M (ref * ref * ref) :=
  inputs <- alloc (ArtifactDict ∅) ;;
  outputs <- alloc (ArtifactDict ∅) ;;
  arg_formats <- alloc (FormatList []) ;;
  items <- list_items args ;;
  for_in items
    (parse_argument func typehints table inputs outputs arg_formats) ;;
  item <- dict_getitem typehints (Name "return") ;;
  fields <- field_items item.2 ;;
  for_in fields (parse_output func table outputs) ;;
  ret (inputs, outputs, arg_formats).

(** The annotation that an annotation object of the store [h] stands
    for.  An object that is equal to a class stands for that class: the
    lookup table does not tell the two apart. *)
Definition view_value (h : heap) (v : hint_value) : typehint :=
  match v with
  | Plain x => x
  | Shape kwargs =>
      ComponentOutput
        match h !! kwargs with
        | Some (FieldDict items) => items
        | _ => []
        end
  | Probe _ like => ClassObject like
  end.

(** The function object as the entry point of the first part sees it. *)
Definition view (h : heap) (f : function) : FunctionType :=
  Build_FunctionType (qualname f) (address f) (getfullargspec f)
    match get_type_hints f with
    | Return hints => Return (view_value h <$> hints)
    | Raise e => Raise e
    end.

(** The entry point.  [typing.get_type_hints] returns a new dictionary
    of the annotation objects of the function or raises;
    [inspect.getfullargspec] returns a new list of the positional
    parameters. *)
Definition parse_typehint_component_function (table : ref) (func : candidate)
  : M (ref * ref * ref) :=
  match func with
  | PlainFunction f =>
      fun h =>
        (typehints <-
           match get_type_hints f with
           | Return hints => alloc (HintDict hints)
           | Raise e => raise e
           end ;;
         args <- alloc (ArgList (getfullargspec f).(args)) ;;
         _validate_signature (getfullargspec f) args typehints subject_message ;;
         _parse_signature (view h f) args typehints table) h
  | NotFunction o => raise (NotAFunction o)
  end.

(** The contract that the references of a result lead to. *)
Definition contract_at (h : heap) (r : outcome (ref * ref * ref))
  : outcome (gmap string ArtifactType * gmap string ArtifactType *
             list (ArgFormats * string)) :=
  match r with
  | Raise e => Raise e
  | Return (inputs, outputs, arg_formats) =>
      match h !! inputs, h !! outputs, h !! arg_formats with
      | Some (ArtifactDict i), Some (ArtifactDict o), Some (FormatList l) =>
          Return (i, o, l)
      | _, _, _ => Raise stray
      end
  end.










End Store.

(** ** The classification the loops compute *)

(** What [parse_argument] makes of the annotation of a parameter: the
    format it appends and the artifact type it records, or nothing when it
    raises. *)
Definition classify (h : typehint) : option (ArgFormats * ArtifactType) :=
  match h with
  | InputArtifact T => Some (INPUT_ARTIFACT, T)
  | InputArtifactUri T => Some (INPUT_ARTIFACT_URI, T)
  | OutputArtifact T => Some (OUTPUT_ARTIFACT, T)
  | OutputArtifactUri T => Some (OUTPUT_ARTIFACT_URI, T)
  | _ => match primitive_lookup h with
         | Some T => Some (ARTIFACT_VALUE, T)
         | None => None
         end
  end.

(** What the lowering raises on a parameter [n] and on a field [k] of the
    result shape whose annotation [h] it cannot classify. *)
Definition input_rejection (n : string) (f : FunctionType) (h : typehint)
  : exception :=
  match h with
  | Unhashable type_name => unhashable type_name
  | _ => UnrecognizedInputAnnotation n f
  end.

Definition output_rejection (k : string) (f : FunctionType) (h : typehint)
  : exception :=
  match h with
  | Unhashable type_name => unhashable type_name
  | _ => UnrecognizedOutputAnnotation k f
  end.

Definition is_output_format (fmt : ArgFormats) : bool :=
  match fmt with
  | OUTPUT_ARTIFACT | OUTPUT_ARTIFACT_URI => true
  | _ => false
  end.

Definition record_argument (fmt : ArgFormats) (arg : string) (T : ArtifactType)
    (st : Locals) : Locals :=
  {| func := func st; argspec := argspec st; typehints := typehints st;
     inputs := if is_output_format fmt then inputs st else <[arg := T]> (inputs st);
     outputs := if is_output_format fmt then <[arg := T]> (outputs st) else outputs st;
     arg_formats := arg_formats st ++ [(fmt, arg)] |}.

(** The locals keep the arguments of the call. *)
Definition same_arguments (st0 st : Locals) : Prop :=
  func st = func st0 /\ argspec st = argspec st0 /\ typehints st = typehints st0.

(** An entry of [arg_formats] is the one of the parameter [arg]. *)
Definition format_entry (hints : gmap string typehint) (arg : argument)
    (entry : ArgFormats * string) : Prop :=
  exists h T, arg = Name entry.2 /\ hints !! entry.2 = Some h /\
              classify h = Some (entry.1, T).

(** The invariant of the loop over the parameters, [done] being the
    parameters gone through and [st0] the locals before the loop. *)
Definition params_inv (st0 : Locals) (done : list argument) (st : Locals) : Prop :=
  same_arguments st0 st /\
  (exists fmts, arg_formats st = (arg_formats st0 ++ fmts)%list /\
                Forall2 (format_entry (typehints st0)) done fmts) /\
  (forall n h fmt T,
      Name n ∈ done -> typehints st0 !! n = Some h -> classify h = Some (fmt, T) ->
      if is_output_format fmt then outputs st !! n = Some T
      else inputs st !! n = Some T) /\
  (forall n,
      inputs st !! n = inputs st0 !! n \/
      exists h fmt T, Name n ∈ done /\ typehints st0 !! n = Some h /\
                      classify h = Some (fmt, T) /\ is_output_format fmt = false) /\
  (forall n,
      outputs st !! n = outputs st0 !! n \/
      exists h fmt T, Name n ∈ done /\ typehints st0 !! n = Some h /\
                      classify h = Some (fmt, T) /\ is_output_format fmt = true).

(** The artifact types the fields of the result shape add to [outputs]. *)
Definition record_output (m : gmap string ArtifactType) (item : string * typehint)
  : gmap string ArtifactType :=
  match primitive_lookup item.2 with
  | Some T => <[item.1 := T]> m
  | None => m
  end.

(** The invariant of the loop over the fields of the result shape. *)
Definition fields_inv (st1 : Locals) (done : list (string * typehint))
    (st : Locals) : Prop :=
  same_arguments st1 st /\
  inputs st = inputs st1 /\
  arg_formats st = arg_formats st1 /\
  Forall (fun item => is_Some (primitive_lookup item.2)) done /\
  outputs st = foldl record_output (outputs st1) done.

(** The locals with another type hint dictionary. *)
Definition with_typehints (t : gmap string typehint) (st : Locals) : Locals :=
  {| func := func st; argspec := argspec st; typehints := t;
     inputs := inputs st; outputs := outputs st;
     arg_formats := arg_formats st |}.

(** The locals with another function object. *)
Definition with_func (g : FunctionType) (st : Locals) : Locals :=
  {| func := g; argspec := argspec st; typehints := typehints st;
     inputs := inputs st; outputs := outputs st;
     arg_formats := arg_formats st |}.

(** ** The structural defects of a declaration *)

Definition has_output_contract (hints : gmap string typehint) : Prop :=
  exists kwargs, hints !! "return" = Some (ComponentOutput kwargs).

Definition has_variadic (a : FullArgSpec) : Prop :=
  exists c s, varargs a = Some (String c s) \/ varkw a = Some (String c s).

Definition has_default (a : FullArgSpec) : Prop :=
  exists d ds, defaults a = Some (d :: ds).



(** A parameter the validator accepts: a name with an annotation. *)
Definition annotated (hints : gmap string typehint) (arg : argument) : Prop :=
  exists n, arg = Name n /\ is_Some (hints !! n).

(** The five errors of the validator. *)
Definition validation_errors (subject_message : string) : list exception :=
  [ MissingOutputContract subject_message;
    UnsupportedVariadicParameters subject_message;
    UnsupportedDefaultValue subject_message;
    UnsupportedNestedParameter subject_message;
    MissingAnnotation subject_message ].

(** ** What the specification says of a parameter *)

(** The annotations the lowering accepts on a parameter. *)
Definition recognized (h : typehint) : Prop :=
  match h with
  | InputArtifact _ | InputArtifactUri _
  | OutputArtifact _ | OutputArtifactUri _ => True
  | ClassObject py_int | ClassObject py_float
  | ClassObject py_bytes | ClassObject py_Text => True
  | _ => False
  end.

(** The parameter [n], annotated [h], has been given the format [fmt] and
    recorded in the mapping and with the artifact type that go with [h];
    it is in no other mapping. *)
Definition lowered_as (st : Locals) (n : string) (h : typehint)
    (fmt : ArgFormats) : Prop :=
  match h with
  | InputArtifact T =>
      fmt = INPUT_ARTIFACT /\ inputs st !! n = Some T /\ outputs st !! n = None
  | InputArtifactUri T =>
      fmt = INPUT_ARTIFACT_URI /\ inputs st !! n = Some T /\ outputs st !! n = None
  | OutputArtifact T =>
      fmt = OUTPUT_ARTIFACT /\ outputs st !! n = Some T /\ inputs st !! n = None
  | OutputArtifactUri T =>
      fmt = OUTPUT_ARTIFACT_URI /\ outputs st !! n = Some T /\ inputs st !! n = None
  | ClassObject py_int =>
      fmt = ARTIFACT_VALUE /\ inputs st !! n = Some IntegerType /\
      outputs st !! n = None
  | ClassObject py_float =>
      fmt = ARTIFACT_VALUE /\ inputs st !! n = Some FloatType /\
      outputs st !! n = None
  | ClassObject py_bytes =>
      fmt = ARTIFACT_VALUE /\ inputs st !! n = Some BytesType /\
      outputs st !! n = None
  | ClassObject py_Text =>
      fmt = ARTIFACT_VALUE /\ inputs st !! n = Some StringType /\
      outputs st !! n = None
  | _ => False
  end.

(** A parameter that is a name with a recognized annotation. *)
Definition recognized_parameter (hints : gmap string typehint) (arg : argument)
  : Prop :=
  exists n h, arg = Name n /\ hints !! n = Some h /\ recognized h.

(** The outcome of the loop over the positional parameters of a
    declaration: either every parameter has been lowered, the entries of
    [arg_formats] following the parameters one by one, or the first
    parameter whose annotation is not recognized is reported, with
    UnrecognizedInputAnnotation when the annotation can be hashed and
    with the [TypeError] of the lookup table when it cannot. *)
Definition parameters_loop_cases (f : FunctionType) (a : FullArgSpec)
    (t : gmap string typehint) : Prop :=
  (exists st,
      for_in (args a) parse_argument (enter f a t) = Return st /\
      Forall2 (fun arg entry =>
                 exists h, arg = Name entry.2 /\ t !! entry.2 = Some h /\
                           lowered_as st entry.2 h entry.1)
              (args a) (arg_formats st)) \/
  (exists (done : list argument) n rest h,
      args a = (done ++ Name n :: rest)%list /\
      Forall (recognized_parameter t) done /\
      t !! n = Some h /\ ~ recognized h /\
      for_in (args a) parse_argument (enter f a t) =
        Raise (input_rejection n f h) /\
      _parse_signature f a t = Raise (input_rejection n f h)).





(** The names of the fields of the result shape. *)
Definition field_names (t : gmap string typehint) : list string :=
  match t !! "return" with
  | Some (ComponentOutput kwargs) => map fst kwargs
  | _ => []
  end.

(** ** What the specification says of a field of the result shape *)

(** The four primitive scalar types and their artifact types. *)
Definition is_primitive (h : typehint) (T : ArtifactType) : Prop :=
  (h = ClassObject py_int /\ T = IntegerType) \/
  (h = ClassObject py_float /\ T = FloatType) \/
  (h = ClassObject py_bytes /\ T = BytesType) \/
  (h = ClassObject py_Text /\ T = StringType).

(** An annotation that stands for an output artifact: one of the two
    output markers or a bare artifact class. *)
Definition artifact_typed (h : typehint) : Prop :=
  match h with
  | OutputArtifact _ | OutputArtifactUri _ => True
  | ClassObject (ArtifactClass _) => True
  | _ => False
  end.

(** The result [r] of the lowering, [st1] being the locals after the loop
    over the parameters and [kwargs] the fields of the result shape:
    either every field is primitive and the contract has the [inputs] and
    [arg_formats] of [st1] and the fields recorded in [outputs], or the
    first field that is not primitive is reported: with
    MisplacedOutputArtifact when it stands for an artifact, else with
    UnrecognizedOutputAnnotation when its annotation can be hashed and
    with the [TypeError] of the lookup table when it cannot. *)
Definition result_fields_lowered (f : FunctionType) (st1 : Locals)
    (kwargs : list (string * typehint))
    (r : outcome (gmap string ArtifactType * gmap string ArtifactType *
                  list (ArgFormats * string))) : Prop :=
  (exists o,
      r = Return (inputs st1, o, arg_formats st1) /\
      (forall n, n ∉ map fst kwargs -> o !! n = outputs st1 !! n) /\
      Forall (fun item => exists T, is_primitive item.2 T /\
                (NoDup (map fst kwargs) -> o !! item.1 = Some T)) kwargs) \/
  (exists (done : list (string * typehint)) k h rest,
      kwargs = (done ++ (k, h) :: rest)%list /\
      Forall (fun item => exists T, is_primitive item.2 T) done /\
      ((artifact_typed h /\ r = Raise (MisplacedOutputArtifact f)) \/
       (~ artifact_typed h /\ (forall T, ~ is_primitive h T) /\
        r = Raise (output_rejection k f h)))).

(** The three errors of the lowering. *)
Definition lowering_error (f : FunctionType) (e : exception) : Prop :=
  (exists n, e = UnrecognizedInputAnnotation n f) \/
  e = MisplacedOutputArtifact f \/
  (exists k, e = UnrecognizedOutputAnnotation k f).


(** ** What an error message names *)

(** The message of [e] has the text [what] in it. *)
Definition names (e : exception) (what : string) : Prop :=
  contains what (exception_message e) = true.


(** ** Sample declarations *)

(** The type hints of a function whose hints resolve. *)
Definition resolved (f : FunctionType) : gmap string typehint :=
  match get_type_hints f with
  | Return t => t
  | Raise _ => ∅
  end.

Definition no_extras (names : list string) : FullArgSpec :=
  {| args := map Name names; varargs := None; varkw := None; defaults := None;
     kwonlyargs := []; kwonlydefaults := None |}.

(** [def infra_validate(model: InputArtifact[Model],
                        blessing: OutputArtifact[InfraBlessing])
      -> ComponentOutput()]. *)
Definition infra_validate : FunctionType :=
  {| qualname := "infra_validate";
     address := 140234%N;
     getfullargspec := no_extras ["model"; "blessing"];
     get_type_hints :=
       Return
         (<["model" := InputArtifact Model]>
         (<["blessing" := OutputArtifact InfraBlessing]>
            (<["return" := ComponentOutput []]> ∅))) |}.

(** [def check(threshold: float) -> ComponentOutput()]. *)
Definition check : FunctionType :=
  {| qualname := "check";
     address := 140500%N;
     getfullargspec := no_extras ["threshold"];
     get_type_hints :=
       Return
         (<["threshold" := ClassObject py_float]>
         (<["return" := ComponentOutput []]> ∅)) |}.


(** [def bless() -> ComponentOutput(blessing=InfraBlessing)]. *)
Definition bless : FunctionType :=
  {| qualname := "bless";
     address := 141000%N;
     getfullargspec := no_extras [];
     get_type_hints :=
       Return
         (<["return" :=
           ComponentOutput [("blessing", ClassObject (ArtifactClass InfraBlessing))]]> ∅) |}.

(** [def overwrite(blessing: OutputArtifact[InfraBlessing])
      -> ComponentOutput(blessing=int)]. *)
Definition overwrite : FunctionType :=
  {| qualname := "overwrite";
     address := 141300%N;
     getfullargspec := no_extras ["blessing"];
     get_type_hints :=
       Return
         (<["blessing" := OutputArtifact InfraBlessing]>
         (<["return" := ComponentOutput [("blessing", ClassObject py_int)]]> ∅)) |}.

(** [def score(threshold) -> ComponentOutput()]: a parameter without
    annotation. *)
Definition score : FunctionType :=
  {| qualname := "score";
     address := 141600%N;
     getfullargspec := no_extras ["threshold"];
     get_type_hints :=
       Return
         (<["return" := ComponentOutput []]> ∅) |}.

(** [def no_contract(x: InputArtifact[Model])], without return annotation. *)
Definition no_contract : FunctionType :=
  {| qualname := "no_contract";
     address := 141900%N;
     getfullargspec := no_extras ["x"];
     get_type_hints :=
       Return
         (<["x" := InputArtifact Model]> ∅) |}.

(** [def with_default(x: InputArtifact[Model] = None) -> ComponentOutput()]. *)
Definition with_default : FunctionType :=
  {| qualname := "with_default";
     address := 142200%N;
     getfullargspec :=
       {| args := [Name "x"]; varargs := None; varkw := None;
          defaults := Some ["None"]; kwonlyargs := []; kwonlydefaults := None |};
     get_type_hints :=
       Return
         (<["x" := InputArtifact Model]> (<["return" := ComponentOutput []]> ∅)) |}.

(** [def summarize(model: InputArtifact[Model])
      -> ComponentOutput(count=int, mean=float)]. *)
Definition summarize : FunctionType :=
  {| qualname := "summarize";
     address := 142500%N;
     getfullargspec := no_extras ["model"];
     get_type_hints :=
       Return
         (<["model" := InputArtifact Model]>
         (<["return" :=
              ComponentOutput [("count", ClassObject py_int);
                               ("mean", ClassObject py_float)]]> ∅)) |}.

(** A second function object with the declaration of [infra_validate]. *)
Definition infra_validate_again : FunctionType :=
  {| qualname := "Pipeline.<locals>.infra_validate";
     address := 150000%N;
     getfullargspec := getfullargspec infra_validate;
     get_type_hints := get_type_hints infra_validate |}.

(** The argument specification of the Python 2 declaration
    [def mixed(model, threshold, (low, high))] and type hints that
    annotate [model] only. *)
Definition mixed_argspec : FullArgSpec :=
  {| args := [Name "model"; Name "threshold";
              Nested [Name "low"; Name "high"]];
     varargs := None; varkw := None; defaults := None;
     kwonlyargs := []; kwonlydefaults := None |}.

Definition mixed_typehints : gmap string typehint :=
  <["model" := InputArtifact Model]> (<["return" := ComponentOutput []]> ∅).





(** [def forward(x: 'Examples') -> ComponentOutput()] where no [Examples]
    is defined: the type hints do not resolve. *)
Definition forward : FunctionType :=
  {| qualname := "forward";
     address := 144000%N;
     getfullargspec := no_extras ["x"];
     get_type_hints := Raise (NameError "name 'Examples' is not defined") |}.

(** The store of a module that declares [summarize] and [counted]: the
    lookup table, the [kwargs] dictionaries of the two result shapes and
    the number of calls of [Probe.__hash__]. *)
Definition table_ref : Store.ref := 1%positive.

Definition summarize_fields : Store.ref := 2%positive.

Definition counted_fields : Store.ref := 3%positive.

Definition hash_calls : Store.ref := 4%positive.

Definition module_store : gmap positive Store.object :=
  <[table_ref := Store.Table _PRIMITIVE_TO_ARTIFACT]>
  (<[summarize_fields :=
       Store.FieldDict [("count", ClassObject py_int);
                        ("mean", ClassObject py_float)]]>
  (<[counted_fields := Store.FieldDict []]>
  (<[hash_calls := Store.Counter 0]> ∅))).

(** The function object of [summarize] in that store. *)
Definition summarize_object : Store.function :=
  {| Store.qualname := "summarize";
     Store.address := 142500%N;
     Store.getfullargspec := no_extras ["model"];
     Store.get_type_hints :=
       Return
         (<["model" := Store.Plain (InputArtifact Model)]>
         (<["return" := Store.Shape summarize_fields]> ∅)) |}.


(** ** Reasoning about loops *)

Section Loops.
Context {A S : Type}.
Implicit Types (xs : list A) (body : A -> S -> outcome S).

Lemma bind_Return {B C : Type} (m : outcome B) (k : B -> outcome C) (c : C) :
  bind m k = Return c <-> exists b, m = Return b /\ k b = Return c.
Proof.
  destruct m as [b|e]; simpl; split.
  - intros H. exists b. auto.
  - intros (b' & Hb & Hk). congruence.
  - discriminate.
  - intros (b' & Hb & _). discriminate.
Qed.

Lemma bind_Raise {B C : Type} (m : outcome B) (k : B -> outcome C) e :
  bind m k = Raise e <->
  m = Raise e \/ exists b, m = Return b /\ k b = Raise e.
Proof.
  destruct m as [b|e']; simpl; split.
  - intros H. right. exists b. auto.
  - intros [H | (b' & Hb & Hk)]; congruence.
  - intros H. left. congruence.
  - intros [H | (b' & Hb & _)]; congruence.
Qed.

Lemma for_in_app xs ys body s :
  for_in (xs ++ ys) body s = (s' <- for_in xs body s ;; for_in ys body s').
Proof.
  revert s. induction xs as [|x xs IH]; intros s; simpl; [reflexivity|].
  destruct (body x s) as [s1|e]; simpl; [apply IH | reflexivity].
Qed.

(** The invariant rule: [I done s] relates the locals to the elements
    gone through so far. *)
Lemma for_in_invariant (I : list A -> S -> Prop) xs body s s' :
  I [] s ->
  (forall (done : list A) x s1 s2,
      I done s1 -> body x s1 = Return s2 -> I (done ++ [x])%list s2) ->
  for_in xs body s = Return s' ->
  I xs s'.
Proof.
  intros H0 Hstep. revert s'.
  induction xs as [|x xs IH] using rev_ind; intros s' Hrun.
  - simpl in Hrun. congruence.
  - rewrite for_in_app in Hrun. apply bind_Return in Hrun.
    destruct Hrun as (s1 & Hxs & Hx). simpl in Hx.
    apply bind_Return in Hx. destruct Hx as (s2 & Hbody & Heq).
    injection Heq as <-. eapply Hstep; [apply IH|]; eassumption.
Qed.

(** A loop that raises went through a prefix and raised in the body of
    the next element. *)
Lemma for_in_Raise xs body s e :
  for_in xs body s = Raise e ->
  exists (done : list A) x rest s1,
    xs = (done ++ x :: rest)%list /\ for_in done body s = Return s1 /\
    body x s1 = Raise e.
Proof.
  revert s. induction xs as [|x xs IH]; intros s; simpl; [discriminate|].
  intros Hrun. apply bind_Raise in Hrun.
  destruct Hrun as [Hx | (s1 & Hx & Hrest)].
  - exists [], x, xs, s. auto.
  - destruct (IH _ Hrest) as (done & y & rest & s2 & -> & Hdone & Hy).
    exists (x :: done), y, rest, s2. simpl. rewrite Hx. simpl. auto.
Qed.

(** A loop whose body returns on every element returns. *)
Lemma for_in_total (P : S -> Prop) xs body s :
  P s ->
  (forall x s1, x ∈ xs -> P s1 -> exists s2, body x s1 = Return s2 /\ P s2) ->
  exists s', for_in xs body s = Return s' /\ P s'.
Proof.
  revert s. induction xs as [|x xs IH]; intros s Hs Hbody; simpl.
  - eauto.
  - destruct (Hbody x s) as (s2 & -> & Hs2); [left | assumption |].
    simpl. apply IH; [assumption|].
    intros y s1 Hy. apply Hbody. right. exact Hy.
Qed.
End Loops.

(** ** The loop over the parameters *)

Lemma parse_argument_classify n h st :
  typehints st !! n = Some h ->
  parse_argument (Name n) st =
  match classify h with
  | Some (fmt, T) => Return (record_argument fmt n T st)
  | None => Raise (input_rejection n (func st) h)
  end.
Proof.
  intros Hh. unfold parse_argument. simpl. rewrite Hh. simpl.
  destruct h as [T|T|T|T|kw|c|l|u]; try reflexivity.
  unfold classify, primitive_find, bind.
  destruct (primitive_lookup (ClassObject c)); reflexivity.
Qed.

Lemma parse_argument_Return arg st st' :
  parse_argument arg st = Return st' ->
  exists n h fmt T,
    arg = Name n /\ typehints st !! n = Some h /\
    classify h = Some (fmt, T) /\ st' = record_argument fmt n T st.
Proof.
  destruct arg as [n|l]; [|discriminate].
  destruct (typehints st !! n) as [h|] eqn:Hh.
  - rewrite (parse_argument_classify n h st Hh).
    destruct (classify h) as [[fmt T]|] eqn:Hc; [|discriminate].
    intros [= <-]. exists n, h, fmt, T. auto.
  - unfold parse_argument. simpl. rewrite Hh. discriminate.
Qed.

Lemma params_inv_start st0 : params_inv st0 [] st0.
Proof.
  repeat split; auto.
  - exists []. rewrite app_nil_r. split; [reflexivity | constructor].
  - intros n h fmt T Hn. apply elem_of_nil in Hn. contradiction.
Qed.

Lemma params_inv_step st0 done arg st1 st2 :
  params_inv st0 done st1 ->
  parse_argument arg st1 = Return st2 ->
  params_inv st0 (done ++ [arg]) st2.
Proof.
  intros ((Hf & Ha & Ht) & (fmts & Hfmts & Hall) & Hrec & Hin & Hout) Hrun.
  apply parse_argument_Return in Hrun.
  destruct Hrun as (m & h & fmt & T & -> & Hh & Hc & ->).
  rewrite Ht in Hh.
  split; [repeat split; simpl; assumption|].
  split.
  { exists (fmts ++ [(fmt, m)])%list. simpl. rewrite Hfmts, app_assoc.
    split; [reflexivity|]. apply Forall2_app; [assumption|].
    constructor; [|constructor]. exists h, T. auto. }
  split.
  { intros n h' fmt' T' Hn Hh' Hc'.
    destruct (decide (n = m)) as [->|Hne].
    - assert (h' = h) as -> by congruence.
      assert (fmt' = fmt /\ T' = T) as [-> ->] by (split; congruence).
      simpl. destruct (is_output_format fmt); apply lookup_insert_eq.
    - apply elem_of_app in Hn. destruct Hn as [Hn|Hn].
      + specialize (Hrec n h' fmt' T' Hn Hh' Hc'). simpl.
        destruct (is_output_format fmt'), (is_output_format fmt);
          rewrite ?lookup_insert_ne by congruence; assumption.
      + apply list_elem_of_singleton in Hn. congruence. }
  split.
  { intros n. simpl. destruct (is_output_format fmt) eqn:Hfmt.
    - destruct (Hin n) as [Heq | (h' & fmt' & T' & Hn & Hrest)]; [left; assumption|].
      right. exists h', fmt', T'. split; [apply elem_of_app; auto | assumption].
    - destruct (decide (n = m)) as [->|Hne].
      + right. exists h, fmt, T. split; [|auto].
        apply elem_of_app. right. apply list_elem_of_singleton. reflexivity.
      + rewrite lookup_insert_ne by congruence.
        destruct (Hin n) as [Heq | (h' & fmt' & T' & Hn & Hrest)]; [left; assumption|].
        right. exists h', fmt', T'. split; [apply elem_of_app; auto | assumption]. }
  { intros n. simpl. destruct (is_output_format fmt) eqn:Hfmt.
    - destruct (decide (n = m)) as [->|Hne].
      + right. exists h, fmt, T. split; [|auto].
        apply elem_of_app. right. apply list_elem_of_singleton. reflexivity.
      + rewrite lookup_insert_ne by congruence.
        destruct (Hout n) as [Heq | (h' & fmt' & T' & Hn & Hrest)]; [left; assumption|].
        right. exists h', fmt', T'. split; [apply elem_of_app; auto | assumption].
    - destruct (Hout n) as [Heq | (h' & fmt' & T' & Hn & Hrest)]; [left; assumption|].
      right. exists h', fmt', T'. split; [apply elem_of_app; auto | assumption]. }
Qed.

Lemma params_loop_inv st0 args st :
  for_in args parse_argument st0 = Return st -> params_inv st0 args st.
Proof.
  apply (for_in_invariant (params_inv st0)).
  - apply params_inv_start.
  - intros done x s1 s2. apply params_inv_step.
Qed.

Lemma parse_argument_Raise arg st e :
  parse_argument arg st = Raise e ->
  (exists l, arg = Nested l /\ e = unhashable_list) \/
  (exists n, arg = Name n /\ typehints st !! n = None /\ e = KeyError n) \/
  (exists n h, arg = Name n /\ typehints st !! n = Some h /\
               classify h = None /\ e = input_rejection n (func st) h).
Proof.
  destruct arg as [n|l].
  - destruct (typehints st !! n) as [h|] eqn:Hh.
    + rewrite (parse_argument_classify n h st Hh).
      destruct (classify h) as [[fmt T]|] eqn:Hc; [discriminate|].
      intros [= <-]. right. right. exists n, h. auto.
    + unfold parse_argument. simpl. rewrite Hh. simpl.
      intros [= <-]. right. left. exists n. auto.
  - intros [= <-]. left. exists l. auto.
Qed.

(** ** The loop over the fields of the result shape *)

Lemma primitive_not_artifact h :
  is_Some (primitive_lookup h) -> is_output_artifact h = false.
Proof.
  destruct h as [T|T|T|T|kw|c|l|u]; simpl; intros [T' HT]; try discriminate;
    try reflexivity.
  destruct c; try reflexivity. discriminate.
Qed.

Lemma parse_output_primitive k h T st :
  primitive_lookup h = Some T ->
  parse_output (k, h) st = Return (outputs_setitem k T st).
Proof.
  intros HT. unfold parse_output.
  rewrite primitive_not_artifact by eauto.
  destruct h as [T'|T'|T'|T'|kw|c|l|u]; try discriminate HT.
  unfold primitive_find, bind. rewrite HT. reflexivity.
Qed.

Lemma parse_output_Return item st st' :
  parse_output item st = Return st' ->
  exists T, primitive_lookup item.2 = Some T /\
            st' = outputs_setitem item.1 T st.
Proof.
  destruct item as [k h]. unfold parse_output. simpl.
  destruct (is_output_artifact h); [discriminate|].
  destruct h as [T'|T'|T'|T'|kw|c|l|u]; try discriminate.
  unfold primitive_find, bind.
  destruct (primitive_lookup (ClassObject c)) as [T|]; [|discriminate].
  intros [= <-]. eauto.
Qed.

Lemma parse_output_Raise k h st e :
  parse_output (k, h) st = Raise e ->
  (is_output_artifact h = true /\ e = MisplacedOutputArtifact (func st)) \/
  (is_output_artifact h = false /\ primitive_lookup h = None /\
   e = output_rejection k (func st) h).
Proof.
  unfold parse_output. destruct (is_output_artifact h).
  - intros [= <-]. auto.
  - destruct h as [T'|T'|T'|T'|kw|c|l|u]; try (intros [= <-]; auto).
    unfold primitive_find, bind.
    destruct (primitive_lookup (ClassObject c)); [discriminate|].
    intros [= <-]. auto.
Qed.

Lemma fields_loop_inv st1 kwargs st :
  for_in kwargs parse_output st1 = Return st -> fields_inv st1 kwargs st.
Proof.
  apply (for_in_invariant (fields_inv st1)).
  - repeat split; auto.
  - intros done [k h] s1 s2 ((Hf & Ha & Ht) & Hin & Hfmt & Hall & Hout) Hrun.
    apply parse_output_Return in Hrun. simpl in Hrun.
    destruct Hrun as (T & HT & ->).
    split; [repeat split; simpl; assumption|].
    split; [assumption|]. split; [assumption|]. split.
    + apply Forall_app. split; [assumption|].
      constructor; [|constructor]. simpl. eauto.
    + simpl. rewrite foldl_app. simpl. unfold record_output at 1. simpl.
      rewrite HT, Hout. reflexivity.
Qed.

Lemma record_outputs_other (done : list (string * typehint)) m k :
  k ∉ map fst done -> foldl record_output m done !! k = m !! k.
Proof.
  revert m. induction done as [|[k' h] done IH]; intros m Hk; simpl; [reflexivity|].
  simpl in Hk. apply not_elem_of_cons in Hk. destruct Hk as [Hne Hk].
  rewrite IH by assumption. unfold record_output. simpl.
  destruct (primitive_lookup h); [|reflexivity].
  apply lookup_insert_ne. congruence.
Qed.

Lemma record_outputs_field (done : list (string * typehint)) m k h T :
  NoDup (map fst done) -> (k, h) ∈ done -> primitive_lookup h = Some T ->
  foldl record_output m done !! k = Some T.
Proof.
  revert m. induction done as [|[k' h'] done IH]; intros m Hnd Hin HT.
  - apply elem_of_nil in Hin. contradiction.
  - simpl in Hnd. apply NoDup_cons in Hnd. destruct Hnd as [Hk' Hnd].
    apply elem_of_cons in Hin. destruct Hin as [[= <- <-] | Hin]; simpl.
    + rewrite record_outputs_other by assumption.
      unfold record_output. simpl. rewrite HT. apply lookup_insert_eq.
    + apply IH; assumption.
Qed.

(** ** The whole lowering *)

Lemma parse_signature_Return f a t i o fmts :
  _parse_signature f a t = Return (i, o, fmts) ->
  exists st1 kwargs st2,
    for_in (args a) parse_argument (enter f a t) = Return st1 /\
    params_inv (enter f a t) (args a) st1 /\
    t !! "return" = Some (ComponentOutput kwargs) /\
    for_in kwargs parse_output st1 = Return st2 /\
    fields_inv st1 kwargs st2 /\
    i = inputs st2 /\ o = outputs st2 /\ fmts = arg_formats st2.
Proof.
  unfold _parse_signature, parse_loops. simpl.
  intros H. apply bind_Return in H. destruct H as (st2 & H & [= <- <- <-]).
  apply bind_Return in H. destruct H as (st1 & Hargs & H).
  apply bind_Return in H. destruct H as (kwargs & Hkw & Hfields).
  pose proof (params_loop_inv _ _ _ Hargs) as Hinv.
  destruct Hinv as ((_ & _ & Ht) & _). simpl in Ht. rewrite Ht in Hkw.
  exists st1, kwargs, st2. split; [assumption|].
  split; [apply params_loop_inv; assumption|]. split.
  { unfold return_kwargs in Hkw.
    destruct (t !! "return") as [[]|]; try discriminate. congruence. }
  split; [assumption|]. split; [apply fields_loop_inv; assumption|]. auto.
Qed.

Lemma return_kwargs_Return t kwargs :
  return_kwargs t = Return kwargs <->
  t !! "return" = Some (ComponentOutput kwargs).
Proof.
  unfold return_kwargs. destruct (t !! "return") as [[]|]; split;
    try discriminate; congruence.
Qed.

Lemma parse_signature_params_Raise f a t e :
  for_in (args a) parse_argument (enter f a t) = Raise e ->
  _parse_signature f a t = Raise e.
Proof.
  intros H. unfold _parse_signature, parse_loops. simpl. rewrite H. reflexivity.
Qed.

Lemma parse_signature_fields f a t st1 kwargs :
  for_in (args a) parse_argument (enter f a t) = Return st1 ->
  t !! "return" = Some (ComponentOutput kwargs) ->
  _parse_signature f a t =
  (st <- for_in kwargs parse_output st1 ;;
   Return (inputs st, outputs st, arg_formats st)).
Proof.
  intros Hargs Hret. unfold _parse_signature, parse_loops. simpl.
  rewrite Hargs. simpl.
  destruct (params_loop_inv _ _ _ Hargs) as ((_ & _ & Ht) & _). simpl in Ht.
  rewrite Ht. apply return_kwargs_Return in Hret. rewrite Hret. reflexivity.
Qed.

(** ** The classification and the words of the specification *)

Lemma classify_recognized h :
  is_Some (classify h) <-> recognized h.
Proof.
  assert (forall A : Type, ~ is_Some (@None A)) as Hnone.
  { intros A [x Hx]. discriminate Hx. }
  destruct h as [T|T|T|T|kw|c|l|u]; simpl; try (split; eauto; fail);
    try (split; [apply Hnone | contradiction]).
  destruct c; simpl; try (split; eauto; fail);
    split; first [apply Hnone | contradiction].
Qed.

Lemma classify_None h : classify h = None <-> ~ recognized h.
Proof.
  rewrite <- classify_recognized. destruct (classify h); split.
  - discriminate.
  - intros H. exfalso. apply H. eauto.
  - intros _ [? H]. discriminate H.
  - reflexivity.
Qed.

Lemma classify_lowered_as st n h fmt T :
  classify h = Some (fmt, T) ->
  (if is_output_format fmt then outputs st !! n = Some T
   else inputs st !! n = Some T) ->
  (if is_output_format fmt then inputs st !! n = None
   else outputs st !! n = None) ->
  lowered_as st n h fmt.
Proof.
  destruct h as [T'|T'|T'|T'|kw|c|l|u]; simpl; try discriminate;
    try (intros [= <- <-]; simpl; auto).
  destruct c; simpl; try discriminate; intros [= <- <-]; simpl; auto.
Qed.

Lemma params_from_empty_lookup f a t done st n h fmt T :
  params_inv (enter f a t) done st ->
  Name n ∈ done -> t !! n = Some h -> classify h = Some (fmt, T) ->
  if is_output_format fmt
  then outputs st !! n = Some T /\ inputs st !! n = None
  else inputs st !! n = Some T /\ outputs st !! n = None.
Proof.
  intros (_ & _ & Hrec & Hin & Hout) Hn Hh Hc. simpl in *.
  specialize (Hrec n h fmt T Hn Hh Hc).
  destruct (is_output_format fmt) eqn:Hfmt; (split; [assumption|]).
  - destruct (Hin n) as [-> | (h' & fmt' & T' & _ & Hh' & Hc' & Hfmt')];
      [apply lookup_empty|].
    congruence.
  - destruct (Hout n) as [-> | (h' & fmt' & T' & _ & Hh' & Hc' & Hfmt')];
      [apply lookup_empty|].
    congruence.
Qed.

Lemma params_from_empty f a t done st n h fmt T :
  params_inv (enter f a t) done st ->
  Name n ∈ done -> t !! n = Some h -> classify h = Some (fmt, T) ->
  lowered_as st n h fmt.
Proof.
  intros Hinv Hn Hh Hc.
  pose proof (params_from_empty_lookup f a t done st n h fmt T Hinv Hn Hh Hc)
    as Hlook.
  apply (classify_lowered_as st n h fmt T Hc);
    destruct (is_output_format fmt); tauto.
Qed.

(** ** Properties of the validator *)



Lemma truthy_name_spec (o : option string) :
  truthy_name o = true <-> exists c s, o = Some (String c s).
Proof.
  destruct o as [[|c s]|]; simpl; split; try discriminate; eauto;
    intros (c' & s' & H); discriminate.
Qed.

Lemma truthy_tuple_spec {A : Type} (o : option (list A)) :
  truthy_tuple o = true <-> exists d ds, o = Some (d :: ds).
Proof.
  destruct o as [[|d ds]|]; simpl; split; try discriminate; eauto;
    intros (d' & ds' & H); discriminate.
Qed.

Lemma has_variadic_spec a :
  truthy_name (varargs a) || truthy_name (varkw a) = true <-> has_variadic a.
Proof.
  rewrite orb_true_iff, !truthy_name_spec. unfold has_variadic. split.
  - intros [(c & s & H) | (c & s & H)]; exists c, s; auto.
  - intros (c & s & [H | H]); [left | right]; eauto.
Qed.

Lemma has_output_contract_spec hints :
  match hints !! "return" with
  | Some r => isinstance_ComponentOutput r
  | None => false
  end = true <-> has_output_contract hints.
Proof.
  unfold has_output_contract.
  destruct (hints !! "return") as [[]|]; simpl; split;
    try discriminate; eauto; intros (kw & H); discriminate.
Qed.

Lemma validate_argument_Return hints msg arg u u' :
  validate_argument hints msg arg u = Return u' <-> annotated hints arg.
Proof.
  unfold validate_argument, annotated. destruct arg as [n|l]; simpl.
  - destruct (hints !! n) as [h|] eqn:Hh.
    + rewrite bool_decide_eq_true_2 by eauto. simpl. destruct u, u'. split; eauto.
    + rewrite bool_decide_eq_false_2 by (intros [? ?]; discriminate). simpl.
      split; [discriminate|]. intros (n' & [= <-] & [h Hh']). congruence.
  - split; [discriminate|]. intros (n & H & _). discriminate.
Qed.

Lemma validate_loop_Return hints msg args :
  for_in args (validate_argument hints msg) tt = Return tt <->
  Forall (annotated hints) args.
Proof.
  induction args as [|arg args IH]; simpl.
  - split; [constructor | reflexivity].
  - rewrite bind_Return, Forall_cons. split.
    + intros ([] & Harg & Hrest). split.
      * eapply validate_argument_Return; eassumption.
      * apply IH. assumption.
    + intros [Harg Hrest]. exists tt. split.
      * apply (validate_argument_Return hints msg arg tt tt). assumption.
      * apply IH. assumption.
Qed.



(** The validator goes through its rules in a fixed order and reports the
    first one that fails. *)
Lemma validate_cases a hints msg :
  let v := _validate_signature a hints msg in
  (~ has_output_contract hints /\ v = Raise (MissingOutputContract msg)) \/
  (has_output_contract hints /\ has_variadic a /\
   v = Raise (UnsupportedVariadicParameters msg)) \/
  (has_output_contract hints /\ ~ has_variadic a /\ has_default a /\
   v = Raise (UnsupportedDefaultValue msg)) \/
  (has_output_contract hints /\ ~ has_variadic a /\ ~ has_default a /\
   v = for_in (args a) (validate_argument hints msg) tt).
Proof.
  unfold _validate_signature.
  pose proof (has_output_contract_spec hints) as Hret.
  pose proof (has_variadic_spec a) as Hvar.
  pose proof (truthy_tuple_spec (defaults a)) as Hdef.
  fold (has_default a) in Hdef.
  destruct (match hints !! "return" with
            | Some r => isinstance_ComponentOutput r
            | None => false
            end); simpl.
  2: { left. split; [|reflexivity]. intros H. apply Hret in H. discriminate. }
  right.
  destruct (truthy_name (varargs a) || truthy_name (varkw a)); simpl.
  { left. split; [apply Hret; reflexivity|].
    split; [apply Hvar; reflexivity | reflexivity]. }
  right.
  assert (~ has_variadic a) as Hnovar.
  { intros H. apply Hvar in H. discriminate. }
  destruct (truthy_tuple (defaults a)); simpl.
  { left. split; [apply Hret; reflexivity|]. split; [assumption|].
    split; [apply Hdef; reflexivity | reflexivity]. }
  right. split; [apply Hret; reflexivity|]. split; [assumption|].
  split; [|reflexivity].
  intros H. apply Hdef in H. discriminate.
Qed.



Lemma validation_errors_elem msg e :
  e ∈ validation_errors msg <->
  e = MissingOutputContract msg \/ e = UnsupportedVariadicParameters msg \/
  e = UnsupportedDefaultValue msg \/ e = UnsupportedNestedParameter msg \/
  e = MissingAnnotation msg.
Proof.
  unfold validation_errors. rewrite !elem_of_cons, elem_of_nil. tauto.
Qed.





(** ** The contract of a declaration *)

Lemma Forall2_impl_elem {A B : Type} (R R' : A -> B -> Prop) (l : list A)
    (k : list B) :
  Forall2 R l k ->
  (forall x y, x ∈ l -> R x y -> R' x y) ->
  Forall2 R' l k.
Proof.
  induction 1 as [|x y l k Hxy Hlk IH]; intros Himpl; constructor.
  - apply Himpl; [left | assumption].
  - apply IH. intros x' y' Hx'. apply Himpl. right. exact Hx'.
Qed.

Lemma Forall2_left {A B : Type} (R : A -> B -> Prop) (P : A -> Prop)
    (l : list A) (k : list B) :
  Forall2 R l k -> (forall x y, R x y -> P x) -> Forall P l.
Proof.
  induction 1 as [|x y l k Hxy Hlk IH]; intros Himpl; constructor; eauto.
Qed.

Lemma format_entry_recognized t arg entry :
  format_entry t arg entry -> recognized_parameter t arg.
Proof.
  intros (h & T & -> & Hh & Hc). exists entry.2, h.
  split; [reflexivity|]. split; [assumption|].
  apply classify_recognized. eauto.
Qed.

Lemma lowering_classifies_parameters_core (f : FunctionType) (a : FullArgSpec)
    (t : gmap string typehint) :
  Forall (annotated t) (args a) -> parameters_loop_cases f a t.
Proof.
  intros Hann.
  destruct (for_in (args a) parse_argument (enter f a t)) as [st|e] eqn:Hloop.
  - left. exists st. split; [exact Hloop|].
    pose proof (params_loop_inv _ _ _ Hloop) as Hinv.
    pose proof Hinv as (_ & (fmts & Hfmts & Hall) & _).
    simpl in Hfmts, Hall. rewrite Hfmts.
    apply (Forall2_impl_elem _ _ _ _ Hall).
    intros arg entry Harg (h & T & -> & Hh & Hc). exists h.
    split; [reflexivity|]. split; [assumption|].
    eapply params_from_empty; eauto.
  - right. destruct (for_in_Raise _ _ _ _ Hloop)
      as (done & arg & rest & s1 & Hargs & Hdone & Hbody).
    pose proof (params_loop_inv _ _ _ Hdone) as Hinv.
    destruct Hinv as ((Hf & _ & Ht) & (fmts & _ & Hall) & _).
    simpl in Hf, Ht, Hall.
    assert (annotated t arg) as (n & -> & [h Hh]).
    { rewrite Forall_forall in Hann. apply Hann. rewrite Hargs.
      apply elem_of_app. right. left. }
    apply parse_argument_Raise in Hbody. rewrite Ht, Hf in Hbody.
    destruct Hbody as [(l & Hl & _) | [(n' & [= <-] & Hnone & _)
      | (n' & h' & [= <-] & Hh' & Hc & ->)]]; [discriminate | congruence |].
    exists done, n, rest, h'.
    split; [assumption|]. split.
    { apply (Forall2_left _ _ _ _ Hall). apply format_entry_recognized. }
    split; [assumption|]. split; [apply classify_None; assumption|].
    split; [exact Hloop|]. apply parse_signature_params_Raise. exact Hloop.
Qed.





Lemma entry_point_Return f contract :
  parse_typehint_component_function (Function f) = Return contract ->
  exists t,
    get_type_hints f = Return t /\
    _validate_signature (getfullargspec f) t subject_message = Return tt /\
    _parse_signature f (getfullargspec f) t = Return contract.
Proof.
  simpl. intros H. apply bind_Return in H. destruct H as (t & Ht & H).
  apply bind_Return in H. destruct H as ([] & Hv & H).
  apply bind_Return in H. destruct H as ([[i o] fmts] & Hp & [= <-]). eauto.
Qed.






Lemma Forall2_elem_left {A B : Type} (R : A -> B -> Prop) (l : list A)
    (k : list B) x :
  Forall2 R l k -> x ∈ l -> exists y, y ∈ k /\ R x y.
Proof.
  induction 1 as [|x' y l k Hxy Hlk IH]; intros Hx.
  - apply elem_of_nil in Hx. contradiction.
  - apply elem_of_cons in Hx. destruct Hx as [-> | Hx].
    + exists y. split; [left | assumption].
    + destruct (IH Hx) as (y' & Hy' & HR). exists y'. split; [right|]; assumption.
Qed.

Lemma record_outputs_mono (done : list (string * typehint)) m k :
  is_Some (m !! k) -> is_Some (foldl record_output m done !! k).
Proof.
  revert m. induction done as [|[k' h] done IH]; intros m Hk; simpl; [assumption|].
  apply IH. unfold record_output. simpl.
  destruct (primitive_lookup h); [|assumption].
  destruct (decide (k' = k)) as [->|Hne].
  - rewrite lookup_insert_eq. eauto.
  - rewrite lookup_insert_ne by assumption. assumption.
Qed.

Lemma record_outputs_elem (done : list (string * typehint)) m k :
  Forall (fun item => is_Some (primitive_lookup item.2)) done ->
  k ∈ map fst done ->
  is_Some (foldl record_output m done !! k).
Proof.
  revert m. induction done as [|[k' h] done IH]; intros m Hall Hk; simpl in *.
  - apply elem_of_nil in Hk. contradiction.
  - apply Forall_cons in Hall. destruct Hall as [[T HT] Hall]. simpl in HT.
    destruct (decide (k = k')) as [->|Hne].
    + apply record_outputs_mono. unfold record_output. simpl. rewrite HT.
      rewrite lookup_insert_eq. eauto.
    + apply IH; [assumption|]. apply elem_of_cons in Hk.
      destruct Hk as [Hk|Hk]; [contradiction | assumption].
Qed.


Lemma record_outputs_keys (kwargs : list (string * typehint)) m n :
  Forall (fun item => is_Some (primitive_lookup item.2)) kwargs ->
  is_Some (foldl record_output m kwargs !! n) <->
  is_Some (m !! n) \/ n ∈ map fst kwargs.
Proof.
  intros Hprim. split.
  - intros Hn. destruct (decide (n ∈ map fst kwargs)) as [Hk|Hk]; [auto|].
    left. rewrite record_outputs_other in Hn; assumption.
  - intros [Hm|Hk]; [apply record_outputs_mono | apply record_outputs_elem];
      assumption.
Qed.




(** ** The fields of the result shape *)

Lemma primitive_lookup_spec h T :
  primitive_lookup h = Some T <-> is_primitive h T.
Proof.
  unfold is_primitive. split.
  - destruct h as [T'|T'|T'|T'|kw|c|l|u]; simpl; try discriminate.
    destruct c; simpl; try discriminate; intros [= <-]; tauto.
  - intros [[-> ->] | [[-> ->] | [[-> ->] | [-> ->]]]]; reflexivity.
Qed.

Lemma is_output_artifact_spec h :
  is_output_artifact h = true <-> artifact_typed h.
Proof.
  destruct h as [T|T|T|T|kw|c|l|u]; simpl; try tauto;
    try (split; [discriminate | contradiction]).
  destruct c; simpl; try tauto; split; try discriminate; contradiction.
Qed.

Lemma primitive_fields (items : list (string * typehint)) :
  Forall (fun item => is_Some (primitive_lookup item.2)) items ->
  Forall (fun item => exists T, is_primitive item.2 T) items.
Proof.
  intros Hall. eapply Forall_impl; [exact Hall|].
  intros item [T HT]. exists T. apply primitive_lookup_spec. assumption.
Qed.

Lemma parse_signature_Raise f a t e :
  _parse_signature f a t = Raise e ->
  for_in (args a) parse_argument (enter f a t) = Raise e \/
  exists st1,
    for_in (args a) parse_argument (enter f a t) = Return st1 /\
    (return_kwargs t = Raise e \/
     exists kwargs, t !! "return" = Some (ComponentOutput kwargs) /\
                    for_in kwargs parse_output st1 = Raise e).
Proof.
  unfold _parse_signature, parse_loops. simpl. intros H.
  destruct (for_in (args a) parse_argument (enter f a t)) as [st1|e1] eqn:Hargs;
    simpl in H; [|left; congruence].
  right. exists st1. split; [reflexivity|].
  destruct (params_loop_inv _ _ _ Hargs) as ((_ & _ & Ht) & _). simpl in Ht.
  rewrite Ht in H.
  destruct (return_kwargs t) as [kwargs|e1] eqn:Hkw; simpl in H;
    [|left; congruence].
  right. exists kwargs. split; [apply return_kwargs_Return; assumption|].
  destruct (for_in kwargs parse_output st1); simpl in H; congruence.
Qed.

Lemma result_fields_lowered_core (f : FunctionType) (a : FullArgSpec)
    (t : gmap string typehint) (st1 : Locals)
    (kwargs : list (string * typehint)) :
  for_in (args a) parse_argument (enter f a t) = Return st1 ->
  t !! "return" = Some (ComponentOutput kwargs) ->
  result_fields_lowered f st1 kwargs (_parse_signature f a t).
Proof.
  intros Hargs Hret. rewrite (parse_signature_fields f a t st1 kwargs Hargs Hret).
  destruct (params_loop_inv _ _ _ Hargs) as ((Hf & _ & _) & _). simpl in Hf.
  destruct (for_in kwargs parse_output st1) as [st2|e] eqn:Hloop; simpl.
  - left. destruct (fields_loop_inv _ _ _ Hloop) as (_ & -> & -> & Hprim & ->).
    eexists. split; [reflexivity|]. split.
    + intros n Hn. apply record_outputs_other. assumption.
    + apply Forall_forall. intros [k h] Hitem.
      rewrite Forall_forall in Hprim. destruct (Hprim _ Hitem) as [T HT].
      simpl in HT. exists T. split; [apply primitive_lookup_spec; assumption|].
      intros Hnd. simpl. eapply record_outputs_field; eassumption.
  - right. destruct (for_in_Raise _ _ _ _ Hloop)
      as (done & [k h] & rest & s1 & -> & Hdone & Hbody).
    destruct (fields_loop_inv _ _ _ Hdone) as ((Hf1 & _ & _) & _ & _ & Hprim & _).
    exists done, k, h, rest. split; [reflexivity|].
    split; [apply primitive_fields; assumption|].
    apply parse_output_Raise in Hbody. rewrite Hf1, Hf in Hbody.
    destruct Hbody as [[Hart ->] | (Hart & Hnone & ->)].
    + left. split; [apply is_output_artifact_spec; assumption | reflexivity].
    + right. split.
      { rewrite <- is_output_artifact_spec. congruence. }
      split; [|reflexivity].
      intros T HT. apply primitive_lookup_spec in HT. congruence.
Qed.











Lemma primitive_not_artifact_typed h T : is_primitive h T -> ~ artifact_typed h.
Proof.
  intros [[-> _] | [[-> _] | [[-> _] | [-> _]]]]; simpl; tauto.
Qed.

(** A declaration whose parameters are all recognized and whose result
    fields are all primitive has a contract. *)
Lemma well_formed_declaration_parses f a t kwargs :
  Forall (recognized_parameter t) (args a) ->
  t !! "return" = Some (ComponentOutput kwargs) ->
  Forall (fun item => exists T, is_primitive item.2 T) kwargs ->
  exists st1 o,
    for_in (args a) parse_argument (enter f a t) = Return st1 /\
    params_inv (enter f a t) (args a) st1 /\
    _parse_signature f a t = Return (inputs st1, o, arg_formats st1) /\
    Forall (fun item => exists T, is_primitive item.2 T /\
              (NoDup (map fst kwargs) -> o !! item.1 = Some T)) kwargs.
Proof.
  intros Hrec Hret Hprim.
  assert (Forall (annotated t) (args a)) as Hann.
  { eapply Forall_impl; [exact Hrec|].
    intros arg (n & h & -> & Hh & _). exists n. eauto. }
  destruct (lowering_classifies_parameters_core f a t Hann)
    as [(st1 & Hloop & _) | (done & n & rest & h & Hargs & _ & Hh & Hnot & _)].
  2: { exfalso. rewrite Forall_forall in Hrec.
       destruct (Hrec (Name n)) as (n' & h' & [= <-] & Hh' & Hok).
       - rewrite Hargs. apply elem_of_app. right. left.
       - apply Hnot. congruence. }
  destruct (result_fields_lowered_core f a t st1 kwargs Hloop Hret)
    as [(o & Ho & _ & Hfields) | (done & k & h & rest & Hkw & _ & Hcase)].
  - exists st1, o. split; [assumption|].
    split; [apply params_loop_inv; assumption|]. auto.
  - exfalso. rewrite Forall_forall in Hprim.
    destruct (Hprim (k, h)) as [T HT].
    { rewrite Hkw. apply elem_of_app. right. left. }
    simpl in HT. destruct Hcase as [[Hart _] | (_ & Hnone & _)].
    + exact (primitive_not_artifact_typed h T HT Hart).
    + exact (Hnone T HT).
Qed.



(** ** The entry point *)

(** C6, as the code has it.  A candidate that is not a function object,
    be it a bound method, a class or another callable, is refused with
    NotAFunction before anything else.  On a function object the entry
    point first resolves the type hints, and an exception of that
    resolution leaves the entry point before any validation; with the
    type hints resolved it runs the validator, whose error it raises
    whatever the lowering would do, and when the validator accepts it
    runs the lowering, whose result is its result. *)
Theorem entry_point_requires_function (func : pyobject) :
  ((forall f, func <> Function f) ->
   parse_typehint_component_function func = Raise (NotAFunction func)) /\
  (forall f e, func = Function f -> get_type_hints f = Raise e ->
     parse_typehint_component_function func = Raise e) /\
  (forall f t e, func = Function f -> get_type_hints f = Return t ->
     _validate_signature (getfullargspec f) t subject_message = Raise e ->
     parse_typehint_component_function func = Raise e) /\
  (forall f t, func = Function f -> get_type_hints f = Return t ->
     _validate_signature (getfullargspec f) t subject_message = Return tt ->
     parse_typehint_component_function func =
     _parse_signature f (getfullargspec f) t).
Proof.
  split; [|split; [|split]].
  - intros Hnot. destruct func as [f| | |]; try reflexivity.
    exfalso. apply (Hnot f). reflexivity.
  - intros f e -> Hhints. simpl. rewrite Hhints. reflexivity.
  - intros f t e -> Hhints Hv. simpl. rewrite Hhints. simpl. rewrite Hv.
    reflexivity.
  - intros f t -> Hhints Hv. simpl. rewrite Hhints. simpl. rewrite Hv. simpl.
    destruct (_parse_signature _ _ _) as [[[i o] fmts]|e]; reflexivity.
Qed.

(** The claim C6 fails on [forward], a function object whose type hints
    do not resolve: the entry point raises the [NameError] of the
    resolution, which is no error of the validator and no error of the
    lowering. *)
Lemma unresolved_hints_precede_validation :
  get_type_hints forward = Raise (NameError "name 'Examples' is not defined") /\
  parse_typehint_component_function (Function forward) =
    Raise (NameError "name 'Examples' is not defined") /\
  ((NameError "name 'Examples' is not defined") ∉
     validation_errors subject_message) /\
  ~ lowering_error forward (NameError "name 'Examples' is not defined").
Proof.
  split; [reflexivity|]. split; [reflexivity|]. split.
  - rewrite validation_errors_elem.
    intros [H | [H | [H | [H | H]]]]; discriminate H.
  - intros [[n H] | [H | [k H]]]; discriminate H.
Qed.

Lemma parse_loops_same_arguments st0 st :
  parse_loops st0 = Return st -> same_arguments st0 st.
Proof.
  unfold parse_loops. intros H.
  apply bind_Return in H. destruct H as (st1 & Hargs & H).
  apply bind_Return in H. destruct H as (kwargs & _ & Hfields).
  destruct (params_loop_inv _ _ _ Hargs) as ((Hf1 & Ha1 & Ht1) & _).
  destruct (fields_loop_inv _ _ _ Hfields) as ((Hf2 & Ha2 & Ht2) & _).
  unfold same_arguments. repeat split; congruence.
Qed.

Lemma parse_signature_loops f a t contract :
  _parse_signature f a t = Return contract <->
  exists st, parse_loops (enter f a t) = Return st /\
             contract = (inputs st, outputs st, arg_formats st).
Proof.
  unfold _parse_signature. rewrite bind_Return. split.
  - intros (st & Hst & [= <-]). eauto.
  - intros (st & Hst & ->). eauto.
Qed.

(** ** The parser on the store *)




























(** The contract of [summarize], parsed on the store. *)
Lemma summarize_on_the_store :
  let run :=
    Store.parse_typehint_component_function table_ref
      (Store.PlainFunction summarize_object) module_store in
  Store.contract_at run.2 run.1 =
  Return (<["model" := Model]> ∅,
          <["mean" := FloatType]> (<["count" := IntegerType]> ∅),
          [(INPUT_ARTIFACT, "model")]).
Proof. vm_compute. reflexivity. Qed.


(** ** The order of the fields of the result shape *)

Lemma params_loop_other_hints t' args st st' :
  for_in args parse_argument st = Return st' ->
  (forall n, Name n ∈ args -> t' !! n = typehints st !! n) ->
  for_in args parse_argument (with_typehints t' st) =
    Return (with_typehints t' st').
Proof.
  revert st. induction args as [|arg args IH]; intros st Hrun Hsame; simpl in *.
  - injection Hrun as <-. reflexivity.
  - apply bind_Return in Hrun. destruct Hrun as (s1 & Harg & Hrest).
    apply parse_argument_Return in Harg.
    destruct Harg as (n & h & fmt & T & -> & Hh & Hc & ->).
    rewrite (parse_argument_classify n h (with_typehints t' st)).
    2: { simpl. rewrite Hsame by left. assumption. }
    rewrite Hc. simpl.
    apply (IH (record_argument fmt n T st) Hrest).
    intros m Hm. simpl. apply Hsame. right. assumption.
Qed.

Lemma fields_loop_primitive (kwargs : list (string * typehint)) st :
  Forall (fun item => is_Some (primitive_lookup item.2)) kwargs ->
  exists st', for_in kwargs parse_output st = Return st'.
Proof.
  intros Hprim.
  destruct (for_in_total (fun _ => True) kwargs parse_output st I)
    as (st' & Hrun & _); [|eauto].
  intros [k h] s1 Hitem _. rewrite Forall_forall in Hprim.
  destruct (Hprim _ Hitem) as [T HT]. simpl in HT.
  rewrite (parse_output_primitive k h T s1 HT). eauto.
Qed.

Lemma record_outputs_permutation (kwargs kwargs' : list (string * typehint)) m :
  NoDup (map fst kwargs) ->
  Forall (fun item => is_Some (primitive_lookup item.2)) kwargs ->
  Permutation kwargs kwargs' ->
  foldl record_output m kwargs = foldl record_output m kwargs'.
Proof.
  intros Hnd Hprim Hperm.
  assert (Permutation (map fst kwargs) (map fst kwargs')) as Hkeys
    by (apply Permutation_map; assumption).
  assert (NoDup (map fst kwargs')) as Hnd' by (rewrite <- Hkeys; assumption).
  apply map_eq. intros k.
  destruct (decide (k ∈ map fst kwargs)) as [Hk|Hk].
  - apply list_elem_of_In, in_map_iff in Hk. destruct Hk as ([k' h] & <- & Hin).
    apply list_elem_of_In in Hin. simpl.
    rewrite Forall_forall in Hprim. destruct (Hprim _ Hin) as [T HT]. simpl in HT.
    rewrite (record_outputs_field kwargs m k' h T Hnd Hin HT).
    symmetry. apply (record_outputs_field kwargs' m k' h T Hnd'); [|assumption].
    rewrite <- Hperm. assumption.
  - rewrite record_outputs_other by assumption.
    rewrite record_outputs_other; [reflexivity|].
    rewrite <- Hkeys. assumption.
Qed.

(** X1.  The contract does not depend on the order in which the
    dictionary of the result shape yields its fields: when the lowering
    returns a contract, it returns the same contract for the same fields
    gone through in any other order. *)
Lemma contract_independent_of_field_order f a t kwargs kwargs' contract :
  t !! "return" = Some (ComponentOutput kwargs) ->
  NoDup (map fst kwargs) ->
  Permutation kwargs kwargs' ->
  _parse_signature f a t = Return contract ->
  _parse_signature f a (<["return" := ComponentOutput kwargs']> t) =
    Return contract.
Proof.
  intros Hret Hnd Hperm Hrun. destruct contract as [[i o] fmts].
  apply parse_signature_Return in Hrun.
  destruct Hrun as (st1 & kw & st2 & Hargs & Hinv & Hret' & _ & Hfields & Hc).
  assert (kw = kwargs) as -> by congruence.
  destruct Hfields as (_ & Hin & Hfmt & Hprim & Hout).
  set (t' := <["return" := ComponentOutput kwargs']> t).
  assert (for_in (args a) parse_argument (enter f a t') =
          Return (with_typehints t' st1)) as Hargs'.
  { apply (params_loop_other_hints t' _ _ _ Hargs). intros n Hn. simpl.
    destruct Hinv as (_ & (l & _ & Hall) & _). simpl in Hall.
    destruct (Forall2_elem_left _ _ _ _ Hall Hn)
      as (entry & _ & h & T & [= Hentry] & Hh & Hclass).
    unfold t'. apply lookup_insert_ne. intros <-.
    rewrite <- Hentry, Hret in Hh. injection Hh as <-. discriminate Hclass. }
  assert (t' !! "return" = Some (ComponentOutput kwargs')) as Hret2
    by apply lookup_insert_eq.
  rewrite (parse_signature_fields f a t' _ kwargs' Hargs' Hret2).
  assert (Forall (fun item => is_Some (primitive_lookup item.2)) kwargs')
    as Hprim' by (rewrite <- Hperm; assumption).
  destruct (fields_loop_primitive kwargs' (with_typehints t' st1) Hprim')
    as (st2' & Hrun').
  rewrite Hrun'. simpl.
  destruct (fields_loop_inv _ _ _ Hrun') as (_ & -> & -> & _ & ->). simpl.
  destruct Hc as (-> & -> & ->). rewrite Hin, Hfmt, Hout.
  rewrite (record_outputs_permutation kwargs kwargs' _ Hnd Hprim Hperm).
  reflexivity.
Qed.

Lemma contract_independent_of_field_order_witness :
  _parse_signature summarize (getfullargspec summarize)
    (<["return" := ComponentOutput [("mean", ClassObject py_float);
                                    ("count", ClassObject py_int)]]>
       (resolved summarize)) =
  Return ({["model" := Model]},
          <["count" := IntegerType]> {["mean" := FloatType]},
          [(INPUT_ARTIFACT, "model")]).
Proof.
  apply (contract_independent_of_field_order summarize
           (getfullargspec summarize) (resolved summarize)
           [("count", ClassObject py_int); ("mean", ClassObject py_float)]).
  - vm_compute. reflexivity.
  - simpl. apply NoDup_cons_2.
    + rewrite elem_of_cons, elem_of_nil. intros [H|[]]. discriminate H.
    + apply NoDup_cons_2; [apply not_elem_of_nil | apply NoDup_nil_2].
  - apply perm_swap.
  - vm_compute. reflexivity.
Defined.

(** ** The texts of the errors *)














(** ** Further properties of the parser *)

Lemma validate_Return_iff a t msg :
  _validate_signature a t msg = Return tt <->
  has_output_contract t /\ ~ has_variadic a /\ ~ has_default a /\
  Forall (annotated t) (args a).
Proof.
  destruct (validate_cases a t msg)
    as [(Hret & H) | [(Hret & Hvar & H) | [(Hret & Hvar & Hdef & H)
       | (Hret & Hvar & Hdef & H)]]]; rewrite H.
  1-3: split; [discriminate | tauto].
  rewrite validate_loop_Return. tauto.
Qed.

Lemma recognized_annotated t arg :
  recognized_parameter t arg -> annotated t arg.
Proof. intros (n & h & -> & Hh & _). exists n. eauto. Qed.

Lemma parse_signature_well_formed f a t contract :
  _parse_signature f a t = Return contract ->
  Forall (recognized_parameter t) (args a) /\
  exists kwargs,
    t !! "return" = Some (ComponentOutput kwargs) /\
    Forall (fun item => exists T, is_primitive item.2 T) kwargs.
Proof.
  destruct contract as [[i o] fmts]. intros H.
  apply parse_signature_Return in H.
  destruct H as (st1 & kwargs & st2 & _ & Hinv & Hret & _ & Hfields & _).
  destruct Hinv as (_ & (l & _ & Hall) & _). simpl in Hall.
  destruct Hfields as (_ & _ & _ & Hprim & _). split.
  - apply (Forall2_left _ _ _ _ Hall). apply format_entry_recognized.
  - exists kwargs. split; [assumption | apply primitive_fields; assumption].
Qed.

Lemma entry_point_of_lowering f t contract :
  get_type_hints f = Return t ->
  _validate_signature (getfullargspec f) t subject_message = Return tt ->
  _parse_signature f (getfullargspec f) t = Return contract ->
  parse_typehint_component_function (Function f) = Return contract.
Proof.
  intros Hhints Hv Hp. simpl. rewrite Hhints. simpl. rewrite Hv. simpl.
  rewrite Hp. destruct contract as [[i o] fmts]. reflexivity.
Qed.

(** X2.  The entry point returns a contract for a function exactly when
    its type hints resolve, its declaration has no variadic parameter and
    no default value of a positional parameter, each of its positional
    parameters is a name with a recognized annotation, and its return
    annotation is a [ComponentOutput] whose fields are all annotated with
    primitive scalar types.  Keyword-only parameters, their default
    values and their annotations play no part. *)
Theorem parse_returns_iff_well_formed (f : FunctionType) :
  (exists contract,
      parse_typehint_component_function (Function f) = Return contract) <->
  exists t,
    get_type_hints f = Return t /\
    ~ has_variadic (getfullargspec f) /\
    ~ has_default (getfullargspec f) /\
    Forall (recognized_parameter t) (args (getfullargspec f)) /\
    exists kwargs,
      t !! "return" = Some (ComponentOutput kwargs) /\
      Forall (fun item => exists T, is_primitive item.2 T) kwargs.
Proof.
  split.
  - intros (contract & Hrun). apply entry_point_Return in Hrun.
    destruct Hrun as (t & Hhints & Hv & Hp). apply validate_Return_iff in Hv.
    destruct (parse_signature_well_formed _ _ _ _ Hp) as [Hrec Hret].
    exists t. tauto.
  - intros (t & Hhints & Hvar & Hdef & Hrec & kwargs & Hret & Hprim).
    destruct (well_formed_declaration_parses f _ _ kwargs Hrec Hret Hprim)
      as (st1 & o & _ & _ & Hp & _).
    eexists. apply (entry_point_of_lowering f t); [assumption | | exact Hp].
    apply validate_Return_iff. split; [exists kwargs; assumption|].
    split; [assumption|]. split; [assumption|].
    eapply Forall_impl; [exact Hrec | apply recognized_annotated].
Qed.

Lemma Forall2_elem_right {A B : Type} (R : A -> B -> Prop) (l : list A)
    (k : list B) y :
  Forall2 R l k -> y ∈ k -> exists x, x ∈ l /\ R x y.
Proof.
  induction 1 as [|x y' l k Hxy Hlk IH]; intros Hy.
  - apply elem_of_nil in Hy. contradiction.
  - apply elem_of_cons in Hy. destruct Hy as [-> | Hy].
    + exists x. split; [left | assumption].
    + destruct (IH Hy) as (x' & Hx' & HR). exists x'. split; [right|]; assumption.
Qed.

(** X3.  In a contract the keys of [inputs] are the names that
    [arg_formats] lists with an input or value format, and the keys of
    [outputs] are the names it lists with an output format together with
    the names of the fields of the result shape: the mappings have an
    entry for every parameter the formats announce, and no other. *)
Theorem contract_keys_follow_formats (f : FunctionType)
    (i o : gmap string ArtifactType) (fmts : list (ArgFormats * string)) :
  parse_typehint_component_function (Function f) = Return (i, o, fmts) ->
  exists t,
    get_type_hints f = Return t /\
    (forall n, is_Some (i !! n) <->
               exists fmt, (fmt, n) ∈ fmts /\ is_output_format fmt = false) /\
    (forall n, is_Some (o !! n) <->
               (exists fmt, (fmt, n) ∈ fmts /\ is_output_format fmt = true) \/
               n ∈ field_names t).
Proof.
  intros Hrun. apply entry_point_Return in Hrun.
  destruct Hrun as (t & Hhints & _ & Hrun).
  exists t. split; [assumption|].
  apply parse_signature_Return in Hrun.
  destruct Hrun
    as (st1 & kwargs & st2 & _ & Hinv & Hret & _ & Hfields & -> & -> & ->).
  destruct Hfields as (_ & -> & -> & Hprim & ->).
  unfold field_names. rewrite Hret.
  destruct Hinv as (_ & (l & Hl & Hall) & Hrec & Hin & Hout).
  simpl in Hl, Hall, Hrec, Hin, Hout. rewrite Hl. clear Hl.
  assert (forall n fmt, (fmt, n) ∈ l <->
            exists h T, Name n ∈ args (getfullargspec f) /\
                        t !! n = Some h /\
                        classify h = Some (fmt, T)) as Hentry.
  { intros n fmt. split.
    - intros Hn. destruct (Forall2_elem_right _ _ _ _ Hall Hn)
        as (arg & Harg & h & T & -> & Hh & Hc). simpl in *. eauto.
    - intros (h & T & Hn & Hh & Hc).
      destruct (Forall2_elem_left _ _ _ _ Hall Hn)
        as ([fmt' n'] & Hk & h' & T' & [= <-] & Hh' & Hc'). simpl in *.
      assert (fmt' = fmt) as <- by congruence. assumption. }
  split; intros n.
  - split.
    + intros [T Hn]. destruct (Hin n) as [Heq | (h & fmt & T' & Ha & Hh & Hc & Hf)].
      * rewrite Heq, lookup_empty in Hn. discriminate.
      * exists fmt. split; [apply Hentry; eauto | assumption].
    + intros (fmt & Hn & Hf). apply Hentry in Hn.
      destruct Hn as (h & T & Ha & Hh & Hc).
      specialize (Hrec n h fmt T Ha Hh Hc). rewrite Hf in Hrec. eauto.
  - rewrite (record_outputs_keys kwargs _ n Hprim). split.
    + intros [[T Hn] | Hk]; [|auto].
      destruct (Hout n) as [Heq | (h & fmt & T' & Ha & Hh & Hc & Hf)].
      * rewrite Heq, lookup_empty in Hn. discriminate.
      * left. exists fmt. split; [apply Hentry; eauto | assumption].
    + intros [(fmt & Hn & Hf) | Hk]; [|auto]. left. apply Hentry in Hn.
      destruct Hn as (h & T & Ha & Hh & Hc).
      specialize (Hrec n h fmt T Ha Hh Hc). rewrite Hf in Hrec. eauto.
Qed.

Lemma contract_keys_follow_formats_witness :
  exists t,
    get_type_hints overwrite = Return t /\
    (forall n, is_Some ((∅ : gmap string ArtifactType) !! n) <->
               exists fmt, (fmt, n) ∈ [(OUTPUT_ARTIFACT, "blessing")] /\
                           is_output_format fmt = false) /\
    (forall n, is_Some (({["blessing" := IntegerType]}
                           : gmap string ArtifactType) !! n) <->
               (exists fmt, (fmt, n) ∈ [(OUTPUT_ARTIFACT, "blessing")] /\
                            is_output_format fmt = true) \/
               n ∈ field_names t).
Proof.
  apply (contract_keys_follow_formats overwrite).
  vm_compute. reflexivity.
Defined.

Lemma validate_loop_first_defect t msg (done : list argument) arg rest :
  Forall (annotated t) done -> ~ annotated t arg ->
  for_in (done ++ arg :: rest) (validate_argument t msg) tt =
  Raise (if isinstance_list arg then UnsupportedNestedParameter msg
         else MissingAnnotation msg).
Proof.
  intros Hdone Harg. rewrite for_in_app.
  apply (validate_loop_Return t msg) in Hdone. rewrite Hdone. simpl.
  unfold validate_argument. destruct arg as [n|l]; simpl; [|reflexivity].
  rewrite bool_decide_eq_false_2; [reflexivity|].
  intros Hn. apply Harg. exists n. auto.
Qed.

(** X4.  Among the parameters the validator reports the first one that
    is not a name with an annotation, whatever follows it: with
    UnsupportedNestedParameter when it is a nested parameter, with
    MissingAnnotation when it is a name without annotation. *)
Theorem validator_reports_first_parameter (a : FullArgSpec)
    (t : gmap string typehint) (msg : string) (done : list argument)
    (arg : argument) (rest : list argument) :
  has_output_contract t -> ~ has_variadic a -> ~ has_default a ->
  args a = (done ++ arg :: rest)%list ->
  Forall (annotated t) done -> ~ annotated t arg ->
  _validate_signature a t msg =
  Raise (if isinstance_list arg then UnsupportedNestedParameter msg
         else MissingAnnotation msg).
Proof.
  intros Hret Hvar Hdef Hargs Hdone Harg.
  destruct (validate_cases a t msg)
    as [(H & _) | [(_ & H & _) | [(_ & _ & H & _) | (_ & _ & _ & H)]]];
    try contradiction.
  rewrite H, Hargs. apply validate_loop_first_defect; assumption.
Qed.

Lemma validator_reports_first_parameter_witness :
  _validate_signature mixed_argspec mixed_typehints subject_message =
  Raise (MissingAnnotation subject_message).
Proof.
  apply (validator_reports_first_parameter mixed_argspec mixed_typehints
           subject_message [Name "model"] (Name "threshold")
           [Nested [Name "low"; Name "high"]]).
  - exists []. vm_compute. reflexivity.
  - intros (c & s & [H|H]); discriminate H.
  - intros (d & ds & H). discriminate H.
  - reflexivity.
  - constructor; [|constructor]. exists "model".
    split; [reflexivity|]. vm_compute. eauto.
  - intros (n & [= <-] & [h Hh]). vm_compute in Hh. discriminate Hh.
Defined.

Lemma params_loop_other_func g args st st' :
  for_in args parse_argument st = Return st' ->
  for_in args parse_argument (with_func g st) = Return (with_func g st').
Proof.
  revert st. induction args as [|arg args IH]; intros st Hrun; simpl in *.
  - injection Hrun as <-. reflexivity.
  - apply bind_Return in Hrun. destruct Hrun as (s1 & Harg & Hrest).
    apply parse_argument_Return in Harg.
    destruct Harg as (n & h & fmt & T & -> & Hh & Hc & ->).
    rewrite (parse_argument_classify n h (with_func g st) Hh), Hc. simpl.
    apply (IH (record_argument fmt n T st) Hrest).
Qed.

Lemma fields_loop_other_func g (kwargs : list (string * typehint)) st st' :
  for_in kwargs parse_output st = Return st' ->
  for_in kwargs parse_output (with_func g st) = Return (with_func g st').
Proof.
  revert st. induction kwargs as [|[k h] kwargs IH]; intros st Hrun; simpl in *.
  - injection Hrun as <-. reflexivity.
  - apply bind_Return in Hrun. destruct Hrun as (s1 & Hitem & Hrest).
    apply (parse_output_Return (k, h)) in Hitem. simpl in Hitem.
    destruct Hitem as (T & HT & ->).
    change (bind (parse_output (k, h) (with_func g st))
              (fun s' => for_in kwargs parse_output s') =
            Return (with_func g st')).
    rewrite (parse_output_primitive k h T (with_func g st) HT). simpl.
    apply (IH (outputs_setitem k T st) Hrest).
Qed.

Lemma parse_signature_other_func f g a t contract :
  _parse_signature f a t = Return contract ->
  _parse_signature g a t = Return contract.
Proof.
  rewrite !parse_signature_loops. intros (st & Hst & ->).
  exists (with_func g st). split; [|reflexivity].
  unfold parse_loops in *. simpl in *.
  apply bind_Return in Hst. destruct Hst as (st1 & Hargs & Hst).
  apply bind_Return in Hst. destruct Hst as (kwargs & Hkw & Hfields).
  change (enter g a t) with (with_func g (enter f a t)).
  rewrite (params_loop_other_func g _ _ _ Hargs). simpl. rewrite Hkw. simpl.
  apply fields_loop_other_func. assumption.
Qed.

(** X5.  The contract is that of the declaration, not of the function
    object: two function objects with the same argument specification
    and the same type hints, whatever their names and addresses, have the
    same contract. *)
Theorem contract_independent_of_function (f g : FunctionType)
    (contract : gmap string ArtifactType * gmap string ArtifactType *
                list (ArgFormats * string)) :
  getfullargspec g = getfullargspec f ->
  get_type_hints g = get_type_hints f ->
  parse_typehint_component_function (Function f) = Return contract ->
  parse_typehint_component_function (Function g) = Return contract.
Proof.
  intros Ha Ht Hrun. apply entry_point_Return in Hrun.
  destruct Hrun as (t & Hhints & Hv & Hp).
  apply (entry_point_of_lowering g t); rewrite ?Ha, ?Ht; [assumption..|].
  eapply parse_signature_other_func. eassumption.
Qed.

Lemma contract_independent_of_function_witness :
  parse_typehint_component_function (Function infra_validate_again) =
  Return ({["model" := Model]}, {["blessing" := InfraBlessing]},
          [(INPUT_ARTIFACT, "model"); (OUTPUT_ARTIFACT, "blessing")]).
Proof.
  apply (contract_independent_of_function infra_validate infra_validate_again).
  - reflexivity.
  - reflexivity.
  - vm_compute. reflexivity.
Defined.

(** X6.  The validator adds two restrictions to what the lowering needs:
    the entry point returns a contract exactly when the type hints
    resolve, the lowering alone returns that contract, and the
    declaration has neither a variadic parameter nor a default value of a
    positional parameter.  The other three rules of the validator hold of
    every declaration the lowering accepts. *)
Theorem validator_adds_variadic_and_default_rules (f : FunctionType)
    (contract : gmap string ArtifactType * gmap string ArtifactType *
                list (ArgFormats * string)) :
  parse_typehint_component_function (Function f) = Return contract <->
  exists t,
    get_type_hints f = Return t /\
    _parse_signature f (getfullargspec f) t = Return contract /\
    ~ has_variadic (getfullargspec f) /\ ~ has_default (getfullargspec f).
Proof.
  split.
  - intros Hrun. apply entry_point_Return in Hrun.
    destruct Hrun as (t & Hhints & Hv & Hp).
    apply validate_Return_iff in Hv. exists t. tauto.
  - intros (t & Hhints & Hp & Hvar & Hdef).
    apply (entry_point_of_lowering f t); [assumption | | assumption].
    destruct (parse_signature_well_formed _ _ _ _ Hp) as (Hrec & kwargs & Hret & _).
    apply validate_Return_iff. split; [exists kwargs; assumption|].
    split; [assumption|]. split; [assumption|].
    eapply Forall_impl; [exact Hrec | apply recognized_annotated].
Qed.

Lemma params_loop_recognized t (done : list argument) st :
  typehints st = t ->
  Forall (recognized_parameter t) done ->
  exists st', for_in done parse_argument st = Return st' /\ typehints st' = t.
Proof.
  intros Ht Hrec.
  apply (for_in_total (fun s => typehints s = t)); [assumption|].
  intros arg s1 Harg Hs1. rewrite Forall_forall in Hrec.
  destruct (Hrec _ Harg) as (n & h & -> & Hh & Hok).
  rewrite <- Hs1 in Hh. rewrite (parse_argument_classify n h s1 Hh).
  apply classify_recognized in Hok. destruct Hok as [[fmt T] ->].
  eexists. split; [reflexivity|]. simpl. assumption.
Qed.

(** X7.  The lowering relies on the validator for its lookups.  Called
    on a declaration that was not validated, it raises the [KeyError] of
    the first parameter that has no type hint, a [TypeError] on the first
    nested parameter, and, once the parameters are lowered, the
    [KeyError] of ['return'] when there is no return annotation. *)
Theorem lowering_needs_validation (f : FunctionType) (a : FullArgSpec)
    (t : gmap string typehint) :
  (forall (done : list argument) n rest,
      args a = (done ++ Name n :: rest)%list ->
      Forall (recognized_parameter t) done -> t !! n = None ->
      _parse_signature f a t = Raise (KeyError n)) /\
  (forall (done : list argument) l rest,
      args a = (done ++ Nested l :: rest)%list ->
      Forall (recognized_parameter t) done ->
      exists msg, _parse_signature f a t = Raise (TypeError msg)) /\
  (Forall (recognized_parameter t) (args a) -> t !! "return" = None ->
   _parse_signature f a t = Raise (KeyError "return")).
Proof.
  split; [|split].
  - intros done n rest Hargs Hrec Hn.
    destruct (params_loop_recognized t done (enter f a t) eq_refl Hrec)
      as (st' & Hdone & Ht).
    apply parse_signature_params_Raise.
    rewrite Hargs, for_in_app, Hdone. simpl.
    unfold parse_argument. simpl. rewrite Ht, Hn. reflexivity.
  - intros done l rest Hargs Hrec.
    destruct (params_loop_recognized t done (enter f a t) eq_refl Hrec)
      as (st' & Hdone & Ht).
    eexists. apply parse_signature_params_Raise.
    rewrite Hargs, for_in_app, Hdone. reflexivity.
  - intros Hrec Hret.
    destruct (params_loop_recognized t (args a) (enter f a t) eq_refl Hrec)
      as (st' & Hdone & Ht).
    unfold _parse_signature, parse_loops. simpl. rewrite Hdone. simpl.
    unfold return_kwargs. rewrite Ht, Hret. reflexivity.
Qed.

Lemma for_in_ext {A S : Type} (xs : list A) (body body' : A -> S -> outcome S) s :
  (forall x s1, body x s1 = body' x s1) ->
  for_in xs body s = for_in xs body' s.
Proof.
  intros Hext. revert s. induction xs as [|x xs IH]; intros s; simpl;
    [reflexivity|].
  rewrite Hext. destruct (body' x s); simpl; [apply IH | reflexivity].
Qed.

(** X8.  The validator looks at the return annotation and at whether
    each parameter has an annotation, never at what the annotation of a
    parameter is: replacing the annotation of an annotated name other
    than ['return'] by any value leaves its result unchanged. *)
Theorem validator_ignores_parameter_annotations (a : FullArgSpec)
    (t : gmap string typehint) (msg : string) (n : string) (h : typehint) :
  n <> "return" -> is_Some (t !! n) ->
  _validate_signature a (<[n := h]> t) msg = _validate_signature a t msg.
Proof.
  intros Hn Hsome. unfold _validate_signature.
  rewrite lookup_insert_ne by assumption.
  destruct (negb _); [reflexivity|].
  destruct (_ || _); [reflexivity|].
  destruct (truthy_tuple _); [reflexivity|].
  apply for_in_ext. intros arg u. unfold validate_argument.
  destruct arg as [m|l]; simpl; [|reflexivity].
  destruct (decide (n = m)) as [<-|Hne].
  - rewrite lookup_insert_eq, !bool_decide_eq_true_2 by eauto. reflexivity.
  - rewrite lookup_insert_ne by assumption. reflexivity.
Qed.

Lemma validator_ignores_parameter_annotations_witness :
  _validate_signature (getfullargspec infra_validate)
    (<["model" := Unhashable "list"]> (resolved infra_validate))
    subject_message =
  _validate_signature (getfullargspec infra_validate)
    (resolved infra_validate) subject_message.
Proof.
  apply (validator_ignores_parameter_annotations
           (getfullargspec infra_validate) (resolved infra_validate)
           subject_message "model" (Unhashable "list")).
  - discriminate.
  - vm_compute. eauto.
Defined.

(** ** Examples *)

Example infra_validate_contract :
  parse_typehint_component_function (Function infra_validate) =
  Return ({["model" := Model]}, {["blessing" := InfraBlessing]},
          [(INPUT_ARTIFACT, "model"); (OUTPUT_ARTIFACT, "blessing")]).
Proof. vm_compute. reflexivity. Qed.

Example check_contract :
  parse_typehint_component_function (Function check) =
  Return ({["threshold" := FloatType]}, ∅, [(ARTIFACT_VALUE, "threshold")]).
Proof. vm_compute. reflexivity. Qed.

Example bless_misplaced :
  parse_typehint_component_function (Function bless) =
  Raise (MisplacedOutputArtifact bless).
Proof. vm_compute. reflexivity. Qed.

Example no_contract_refused :
  parse_typehint_component_function (Function no_contract) =
  Raise (MissingOutputContract subject_message).
Proof. vm_compute. reflexivity. Qed.

Example with_default_refused :
  parse_typehint_component_function (Function with_default) =
  Raise (UnsupportedDefaultValue subject_message).
Proof. vm_compute. reflexivity. Qed.

Example bound_method_refused :
  parse_typehint_component_function (BoundMethod infra_validate "<Runner object>") =
  Raise (ValueError
    "Expected a typehint-annotated Python function (got <bound method infra_validate of <Runner object>> instead).").
Proof. vm_compute. reflexivity. Qed.

Example overwrite_contract :
  parse_typehint_component_function (Function overwrite) =
  Return (∅, {["blessing" := IntegerType]}, [(OUTPUT_ARTIFACT, "blessing")]).
Proof. vm_compute. reflexivity. Qed.

Example score_message :
  parse_typehint_component_function (Function score) =
  Raise (ValueError
    "Component declared as a typehint-annotated function must have all arguments annotated with typehints.").
Proof. vm_compute. reflexivity. Qed.

Example repr_text_model : repr_text "model" = "'model'".
Proof. reflexivity. Qed.

Example score_unvalidated :
  _parse_signature score (getfullargspec score) (resolved score) =
  Raise (KeyError "threshold").
Proof. vm_compute. reflexivity. Qed.

Example no_contract_unvalidated :
  _parse_signature no_contract (getfullargspec no_contract)
    (resolved no_contract) =
  Raise (KeyError "return").
Proof. vm_compute. reflexivity. Qed.

Example mixed_refused :
  _validate_signature mixed_argspec mixed_typehints subject_message =
  Raise (MissingAnnotation subject_message).
Proof. vm_compute. reflexivity. Qed.
